(** * cement2.core.controller: command collection, resolution and dispatch

    A shallow embedding of [CementBaseController] and [expose] from
    [cement2/core/controller.py], followed by the properties the
    specification states about them.

    Conventions of the embedding.
    - A Python [dict] is an association list in insertion order: assigning
      to a key that is present replaces the value in place, assigning to a
      new key appends.  Iterating a dict walks that list.
    - An exception is a value of [exn]; code that may raise returns [res].
    - [Log.debug] calls of [dispatch] are recorded in a trace of [event]s,
      as are the method invocations it performs; the [Log.debug] calls of
      [_collect] are not recorded.
    - A meta class is a record of the attributes the code reads.  The two
      attributes the code reads through [hasattr]/[getattr] with a default
      ([stacked_on], [hide]) may be missing; [label], [description] and
      [arguments], which the code reads directly, are always there.
    - A controller class is the list of functions its body defines with
      [def], each bound under its own [__name__], on top of what it
      inherits from [CementBaseController].
    - The argument parser is the [argparse] parser the controller
      requires: registering an option string it already knows raises
      [ArgumentError]. *)

From Stdlib Require Import String Ascii List Bool Arith Lia.
Import ListNotations.
Open Scope list_scope.
Open Scope string_scope.

(** ** Exceptions and results *)

Inductive exn : Type :=
| NotImplementedError
| AttributeError (name : string)
| TypeError (what : string)
| RecursionError
| NotFound (label : string)
| ArgumentError (option : string)
| ParseError (msg : string)
| UserError (msg : string).

Inductive res (A : Type) : Type :=
| Ok (a : A)
| Raise (e : exn).

Arguments Ok {A} a.
Arguments Raise {A} e.

Definition bind {A B : Type} (m : res A) (k : A -> res B) : res B :=
  match m with
  | Ok a => k a
  | Raise e => Raise e
  end.

Notation "x <- m ;; k" := (bind m (fun x => k))
  (at level 61, m at next level, right associativity).

(** A [for] loop whose body may raise. *)
Fixpoint for_each {A S : Type} (body : S -> A -> res S) (xs : list A) (s : S)
  : res S :=
  match xs with
  | [] => Ok s
  | x :: xs' => s' <- body s x ;; for_each body xs' s'
  end.

(** ** Python values used by the controller *)

(** [x in l] for a list of strings. *)
Definition in_list (x : string) (l : list string) : bool :=
  existsb (String.eqb x) l.

(** [s.startswith(p)]. *)
Definition startswith (s p : string) : bool := String.prefix p s.

(** [hasattr]-style attributes: a name that may be missing from a class. *)
Inductive attr (A : Type) : Type :=
| Missing
| Bound (v : A).

Arguments Missing {A}.
Arguments Bound {A} v.

(** Truth value of [getattr(obj, name, None)] for a boolean attribute. *)
Definition truthy (a : attr bool) : bool :=
  match a with
  | Missing => false
  | Bound b => b
  end.

(** Insertion-ordered dictionaries with string keys. *)
Section Dict.
Context {V : Type}.

Definition dict := list (string * V).

Fixpoint dict_get (d : dict) (k : string) : option V :=
    match d with
    | [] => None
    | (k', v) :: d' => if String.eqb k' k then Some v else dict_get d' k
    end.

Fixpoint dict_set (d : dict) (k : string) (v : V) : dict :=
    match d with
    | [] => [(k, v)]
    | (k', v') :: d' =>
        if String.eqb k' k then (k, v) :: d' else (k', v') :: dict_set d' k v
    end.

Definition dict_mem (d : dict) (k : string) : bool :=
    match dict_get d k with
    | Some _ => true
    | None => false
    end.

Definition dict_keys (d : dict) : list string := map fst d.
End Dict.

Arguments dict V : clear implicits.

(** The dictionary [_collect] builds for each command ([func_dict]). *)
Module FuncDict.
Record t : Type := mk {
    controller : string;
    label : string;
    help : string;
    aliases : list string;
    hide : bool
  }.
End FuncDict.

(** One entry of [meta.arguments]: positional part and keyword part. *)
Definition argspec : Type := (list string * list (string * string))%type.

(** An opaque collaborator object (config, log, parsed arguments). *)
Definition handle : Type := string.

(** The argument parser held by the application ([app.args]), which the
    controller requires to be an [argparse] parser. *)
Module Parser.
Record t : Type := mk {
    prog : string;
    added : list argspec;
    description : option string;
    usage : option string;
    raw_formatter : bool
  }.

(** The option strings of a spec: its names that start with the prefix
    character. *)
Definition option_strings (a : argspec) : list string :=
  filter (fun name => startswith name "-") (fst a).

(** The option strings the parser knows. *)
Definition registered (p : t) : list string :=
  flat_map option_strings (added p).

(** [add_argument] of [argparse] with its default conflict handler: an
    option string that is already registered raises [ArgumentError];
    otherwise the spec is recorded after the others. *)
Definition add_argument (p : t) (a : argspec) : res t :=
  match find (fun o => in_list o (registered p)) (option_strings a) with
  | Some o => Raise (ArgumentError o)
  | None =>
      Ok (mk (prog p) (added p ++ [a])%list (description p) (usage p)
             (raw_formatter p))
  end.
End Parser.

(** The application object a controller is set up with. *)
Module App.
Record t : Type := mk {
    argv : list string;
    args : Parser.t;
    config : handle;
    log : handle;
    pargs : option handle
  }.

Definition with_argv (a : t) (v : list string) : t :=
    mk v (args a) (config a) (log a) (pargs a).

Definition with_args (a : t) (p : Parser.t) : t :=
    mk (argv a) p (config a) (log a) (pargs a).
End App.

(** The instance attributes [__init__] creates. *)
Module Instance.
Record t : Type := mk {
    app : option App.t;
    command : string;
    config : option handle;
    log : option handle;
    pargs : option handle;
    visible : dict FuncDict.t;
    hidden : dict FuncDict.t;
    exposed : dict FuncDict.t;
    arguments : list argspec
  }.

Definition with_app (s : t) (a : option App.t) : t :=
    mk a (command s) (config s) (log s) (pargs s)
       (visible s) (hidden s) (exposed s) (arguments s).

Definition with_command (s : t) (c : string) : t :=
    mk (app s) c (config s) (log s) (pargs s)
       (visible s) (hidden s) (exposed s) (arguments s).

Definition with_visible (s : t) (d : dict FuncDict.t) : t :=
    mk (app s) (command s) (config s) (log s) (pargs s)
       d (hidden s) (exposed s) (arguments s).

Definition with_hidden (s : t) (d : dict FuncDict.t) : t :=
    mk (app s) (command s) (config s) (log s) (pargs s)
       (visible s) d (exposed s) (arguments s).

Definition with_exposed (s : t) (d : dict FuncDict.t) : t :=
    mk (app s) (command s) (config s) (log s) (pargs s)
       (visible s) (hidden s) d (arguments s).

Definition with_arguments (s : t) (l : list argspec) : t :=
    mk (app s) (command s) (config s) (log s) (pargs s)
       (visible s) (hidden s) (exposed s) l.

Definition with_shortcuts (s : t) (c l p : option handle) : t :=
    mk (app s) (command s) c l p
       (visible s) (hidden s) (exposed s) (arguments s).
End Instance.

(** ** [expose] *)

(** What [expose.__call__] attaches to a function besides [label] and
    [exposed]. *)
Record marks : Type := mk_marks {
  m_hide : bool;
  m_help : string;
  m_aliases : list string
}.

(** A function of a controller class: its name, what calling it on an
    instance does, and the attributes [expose] attached, if it was
    decorated ([hasattr(func, 'exposed')]). *)
Record function : Type := mk_function {
  __name__ : string;
  body : Instance.t -> res Instance.t;
  exposed_marks : option marks
}.

(** [def name(self): ...] *)
Definition def (name : string) (b : Instance.t -> res Instance.t) : function :=
  mk_function name b None.

(** [expose(hide, help, aliases)(func)]. *)
Definition expose (hide : bool) (help : string) (aliases : list string)
  (func : function) : function :=
  mk_function (__name__ func) (body func) (Some (mk_marks hide help aliases)).

(** [func.label], set by [expose.__call__] to [func.__name__]. *)
Definition label (func : function) : string := __name__ func.

(** ** Controller classes *)

Module Meta.
Record t : Type := mk {
    label : string;
    description : string;
    arguments : list argspec;
    stacked_on : attr (option string);
    hide : attr bool
  }.
End Meta.

Record controller_class : Type := mk_class {
  meta : Meta.t;
  functions : list function
}.

(** [CementBaseController.ignored] *)
Definition ignored : list string := ["visible"; "hidden"; "exposed"].

(** [CementBaseController.__init__]: the state of a new instance. *)
Definition __init__ : Instance.t :=
  Instance.mk None "default" None None None [] [] [] [].

(** [CementBaseController.default], decorated with
    [@expose(hide=True, help='default command')]. *)
Definition default : function :=
  expose true "default command" []
    (def "default" (fun _ => Raise NotImplementedError)).

(** ** Text helpers: lines and [textwrap.dedent] *)

Definition nl : string := String (ascii_of_nat 10) EmptyString.

Definition is_newline (c : ascii) : bool := Ascii.eqb c (ascii_of_nat 10).

(** Space or tab, the class [[ \t]] of [textwrap]. *)
Definition is_blank (c : ascii) : bool :=
  Ascii.eqb c (ascii_of_nat 32) || Ascii.eqb c (ascii_of_nat 9).

(** [s.split('\n')] *)
Fixpoint lines (s : string) : list string :=
  match s with
  | EmptyString => [EmptyString]
  | String c s' =>
      if is_newline c then EmptyString :: lines s'
      else match lines s' with
           | [] => [String c EmptyString]
           | l :: ls => String c l :: ls
           end
  end.

(** ['\n'.join(ls)] *)
Definition unlines (ls : list string) : string := String.concat nl ls.

Fixpoint all_blank (s : string) : bool :=
  match s with
  | EmptyString => true
  | String c s' => is_blank c && all_blank s'
  end.

(** The part of a line matched by [^[ \t]*]. *)
Fixpoint leading_blank (s : string) : string :=
  match s with
  | EmptyString => EmptyString
  | String c s' => if is_blank c then String c (leading_blank s') else EmptyString
  end.

Fixpoint common_prefix (a b : string) : string :=
  match a, b with
  | String x a', String y b' =>
      if Ascii.eqb x y then String x (common_prefix a' b') else EmptyString
  | _, _ => EmptyString
  end.

Fixpoint drop (n : nat) (s : string) : string :=
  match n, s with
  | S n', String _ s' => drop n' s'
  | _, _ => s
  end.

(** Lines made of blanks only are emptied ([_whitespace_only_re]). *)
Definition normalize_line (l : string) : string :=
  if all_blank l then EmptyString else l.

(** The common leading white space of the lines that have some text. *)
Definition margin_of (ls : list string) : string :=
  match map leading_blank (filter (fun l => negb (all_blank l)) ls) with
  | [] => EmptyString
  | i :: rest => fold_left common_prefix rest i
  end.

Definition strip_margin (margin l : string) : string :=
  if String.prefix margin l then drop (String.length margin) l else l.

(** [textwrap.dedent] *)
Definition dedent (text : string) : string :=
  let ls := map normalize_line (lines text) in
  unlines (map (strip_margin (margin_of ls)) ls).

(** [sep.join(l)] *)
Definition join (sep : string) (l : list string) : string := String.concat sep l.

(** ** Attribute lookup on a controller instance *)

(** Names [__init__] stores in the instance dictionary. *)
Definition instance_names : list string :=
  ["app"; "command"; "config"; "log"; "pargs";
   "visible"; "hidden"; "exposed"; "arguments"].

(** Public names [CementBaseController] defines in its class body.  Every
    other name it or [object] contributes to [dir] starts with an
    underscore. *)
Definition base_names : list string :=
  ["meta"; "ignored"; "setup"; "dispatch"; "default";
   "usage_text"; "help_text"].

Fixpoint insert_name (x : string) (l : list string) : list string :=
  match l with
  | [] => [x]
  | y :: l' =>
      match String.compare x y with
      | Lt => x :: l
      | Eq => l
      | Gt => y :: insert_name x l'
      end
  end.

(** [dir(self)]: the attribute names, sorted, each once. *)
Definition dir_ (c : controller_class) : list string :=
  fold_right insert_name []
    (instance_names ++ base_names ++ map __name__ (functions c))%list.

(** What [getattr(self, name)] can evaluate to, as far as the controller
    distinguishes: a function of the class, the inherited [dispatch] and
    [setup], the [meta] class, or some object that has no [exposed]
    attribute and cannot be called. *)
Inductive value : Type :=
| VFunction (f : function)
| VDispatch
| VSetup
| VMeta
| VObject.

(** The function a class body binds to a name: when the body defines the
    name more than once the last [def] stands. *)
Definition class_lookup (c : controller_class) (name : string) : option function :=
  find (fun f => String.eqb (__name__ f) name) (rev (functions c)).

(** The [usage_text] property. *)
Definition usage_text (c : controller_class) (self : Instance.t) : res string :=
  match Instance.app self with
  | None => Raise (AttributeError "args")
  | Some a =>
      if String.eqb (Meta.label (meta c)) "base" then
        Ok (Parser.prog (App.args a) ++ " <CMD> -opt1 --opt2=VAL [arg1] [arg2] ...")
      else
        Ok (Parser.prog (App.args a) ++ " " ++ Meta.label (meta c)
            ++ " <CMD> -opt1 --opt2=VAL [arg1] [arg2] ...")
  end.

(** One pass of the loop of [help_text]. *)
Definition command_text (cmd_txt : string) (func : FuncDict.t) : string :=
  let cmd_txt :=
    if Nat.ltb 0 (List.length (FuncDict.aliases func)) then
      cmd_txt ++ "  " ++ FuncDict.label func ++ " (aliases: "
        ++ join ", " (FuncDict.aliases func) ++ ")" ++ nl
    else
      cmd_txt ++ "  " ++ FuncDict.label func ++ nl in
  if negb (String.eqb (FuncDict.help func) "") then
    cmd_txt ++ "    " ++ FuncDict.help func ++ nl ++ nl
  else
    cmd_txt ++ nl.

(** The [help_text] property. *)
Definition help_text (c : controller_class) (self : Instance.t) : string :=
  let cmd_txt :=
    fold_left (fun txt kv => command_text txt (snd kv)) (Instance.visible self) "" in
  dedent (Meta.description (meta c) ++ nl ++ nl ++ "commands:" ++ nl ++ nl
          ++ cmd_txt ++ nl ++ nl ++ "        " ++ nl ++ "        ").

(** [getattr(self, name)].  The instance dictionary is consulted before the
    functions of the class; the two properties are evaluated when they are
    read. *)
Definition getattr_ (c : controller_class) (self : Instance.t) (name : string)
  : res value :=
  if in_list name instance_names then Ok VObject
  else
    match class_lookup c name with
    | Some f => Ok (VFunction f)
    | None =>
        if String.eqb name "default" then Ok (VFunction default)
        else if String.eqb name "dispatch" then Ok VDispatch
        else if String.eqb name "setup" then Ok VSetup
        else if String.eqb name "meta" then Ok VMeta
        else if String.eqb name "ignored" then Ok VObject
        else if String.eqb name "help_text" then
          let _ := help_text c self in Ok VObject
        else if String.eqb name "usage_text" then
          _ <- usage_text c self ;; Ok VObject
        else Raise (AttributeError name)
    end.

(** ** The controller registry *)

(** Modelled from the spec: the handler registry ([cement2.core.handler])
    is not part of the sources at hand.  The specification describes it as
    a service with [list() -> sequence of registered controller
    descriptors] and [get(label) -> factory], failing with [NotFound] when
    the label is absent. *)
Definition registry : Type := list controller_class.

Definition handler_list (r : registry) : list controller_class := r.

Definition handler_get (r : registry) (lbl : string) : res controller_class :=
  match find (fun c => String.eqb (Meta.label (meta c)) lbl) r with
  | Some c => Ok c
  | None => Raise (NotFound lbl)
  end.

(** ** [_collect] *)

(** [self.app.args.add_argument(_args, **_kwargs)] *)
Definition add_one (self : Instance.t) (spec : argspec) : res Instance.t :=
  match Instance.app self with
  | None => Raise (AttributeError "args")
  | Some a =>
      args <- Parser.add_argument (App.args a) spec ;;
      Ok (Instance.with_app self (Some (App.with_args a args)))
  end.

(** [for _args,_kwargs in arguments: self.app.args.add_argument(...)] *)
Definition add_arguments (specs : list argspec) (self : Instance.t)
  : res Instance.t :=
  for_each add_one specs self.

(** The body of [for member in dir(self)]. *)
Definition collect_member (c : controller_class) (self : Instance.t)
  (member : string) : res Instance.t :=
  if in_list member ignored || startswith member "_" then Ok self
  else
    func <- getattr_ c self member ;;
    match func with
    | VFunction f =>
        match exposed_marks f with
        | Some m =>
            let func_dict :=
              FuncDict.mk (Meta.label (meta c)) (label f) (m_help m)
                          (m_aliases m) (m_hide m) in
            let self :=
              Instance.with_exposed self
                (dict_set (Instance.exposed self) (label f) func_dict) in
            if m_hide m then
              Ok (Instance.with_hidden self
                    (dict_set (Instance.hidden self) (label f) func_dict))
            else if negb (truthy (Meta.hide (meta c))) then
              Ok (Instance.with_visible self
                    (dict_set (Instance.visible self) (label f) func_dict))
            else Ok self
        | None => Ok self
        end
    | _ => Ok self
    end.

(** The body of [for label in func_dicts] for a stacked controller. *)
Definition merge_stacked (controller : controller_class) (self : Instance.t)
  (entry : string * FuncDict.t) : Instance.t :=
  let (lbl, func_dict) := entry in
  let self :=
    Instance.with_exposed self (dict_set (Instance.exposed self) lbl func_dict) in
  if FuncDict.hide func_dict then
    Instance.with_hidden self (dict_set (Instance.hidden self) lbl func_dict)
  else if negb (truthy (Meta.hide (meta controller))) then
    Instance.with_visible self (dict_set (Instance.visible self) lbl func_dict)
  else self.

(** [controller.meta.stacked_on == self.meta.label] *)
Definition stacked_on_is (so : option string) (lbl : string) : bool :=
  match so with
  | Some s => String.eqb s lbl
  | None => false
  end.

(** The body of [for controller in handler.list('controller')]. *)
Definition collect_controller (c : controller_class) (self : Instance.t)
  (controller : controller_class) : res Instance.t :=
  if String.eqb (Meta.label (meta controller)) (Meta.label (meta c)) then Ok self
  else
    match Meta.stacked_on (meta controller) with
    | Missing =>
        if String.eqb (Meta.label (meta controller)) "base" then Ok self
        else if negb (truthy (Meta.hide (meta controller))) then
          let func_dict :=
            FuncDict.mk (Meta.label (meta controller))
                        (Meta.label (meta controller))
                        (Meta.description (meta controller)) [] false in
          let self :=
            Instance.with_exposed self
              (dict_set (Instance.exposed self)
                        (Meta.label (meta controller)) func_dict) in
          if negb (truthy (Meta.hide (meta controller))) then
            Ok (Instance.with_visible self
                  (dict_set (Instance.visible self)
                            (Meta.label (meta controller)) func_dict))
          else Ok self
        else Ok self
    | Bound so =>
        if stacked_on_is so (Meta.label (meta c)) then
          self <- add_arguments (Meta.arguments (meta controller)) self ;;
          let func_dicts := Instance.visible __init__ in
          Ok (fold_left (merge_stacked controller) func_dicts self)
        else Ok self
    end.

Definition _collect (r : registry) (c : controller_class) (self : Instance.t)
  : res Instance.t :=
  let self := Instance.with_visible self [] in
  let self := Instance.with_hidden self [] in
  let self := Instance.with_exposed self [] in
  let self := Instance.with_arguments self [] in
  self <- add_arguments (Meta.arguments (meta c)) self ;;
  self <- for_each (collect_member c) (dir_ c) self ;;
  for_each (collect_controller c) (handler_list r) self.

(** ** [setup] *)

(** The loop [for label in self.exposed] of [setup], which stops at the
    first command one of whose aliases is the token. *)
Fixpoint alias_scan (token : string) (entries : dict FuncDict.t)
  : option FuncDict.t :=
  match entries with
  | [] => None
  | (_, func) :: rest =>
      if in_list token (FuncDict.aliases func) then Some func
      else alias_scan token rest
  end.

(** [self.app.argv.pop(0)], leaving the rest of the application as it is. *)
Definition pop_argv (self : Instance.t) (a : App.t) (rest : list string)
  : Instance.t :=
  Instance.with_app self (Some (App.with_argv a rest)).

(** "chop off a command argument if it matches an exposed command" *)
Definition chop_command (self : Instance.t) : res Instance.t :=
  match Instance.app self with
  | None => Raise (AttributeError "argv")
  | Some a =>
      match App.argv a with
      | [] => Ok self
      | token :: rest =>
          if negb (startswith token "-") then
            if dict_mem (Instance.exposed self) token then
              Ok (Instance.with_command (pop_argv self a rest) token)
            else
              match alias_scan token (Instance.exposed self) with
              | Some func =>
                  Ok (pop_argv (Instance.with_command self (FuncDict.label func))
                               a rest)
              | None => Ok self
              end
          else Ok self
      end
  end.

(** The assignments to [self.app.args] that follow. *)
Definition describe (c : controller_class) (self : Instance.t) : res Instance.t :=
  match Instance.app self with
  | None => Raise (AttributeError "args")
  | Some a =>
      let description := help_text c self in
      usage <- usage_text c self ;;
      Ok (Instance.with_app self
            (Some (App.with_args a
                     (Parser.mk (Parser.prog (App.args a))
                                (Parser.added (App.args a))
                                (Some description) (Some usage) true))))
  end.

Section Setup.
  (** [app._parse_args], which belongs to the application. *)
Variable parse_args : App.t -> res App.t.

Definition setup (r : registry) (c : controller_class) (self : Instance.t)
    (base_app : App.t) : res Instance.t :=
    let self := Instance.with_app self (Some base_app) in
    self <- _collect r c self ;;
    self <- chop_command self ;;
    self <- describe c self ;;
    match Instance.app self with
    | None => Raise (AttributeError "_parse_args")
    | Some a =>
        a <- parse_args a ;;
        Ok (Instance.with_shortcuts (Instance.with_app self (Some a))
              (Some (App.config a)) (Some (App.log a)) (App.pargs a))
    end.
End Setup.

(** ** [dispatch] *)

(** The object a command is run on. *)
Inductive target : Type :=
| OnSelf
| OnFresh (controller : string).

(** What [dispatch] lets the outside observe: debug messages and calls. *)
Inductive event : Type :=
| Debug (msg : string)
| Invoke (on : target) (name : string).

Definition outcome : Type := (list event * res Instance.t)%type.

(** [v()] for an attribute [v] of the object [obj]; [redispatch] is what
    calling the inherited [dispatch] of that object does. *)
Definition call (redispatch : Instance.t -> outcome) (obj : Instance.t)
  (v : value) : outcome :=
  match v with
  | VFunction f => ([], body f obj)
  | VDispatch => redispatch obj
  | VSetup => ([], Raise (TypeError "setup() takes exactly 2 arguments"))
  | VMeta => ([], Ok obj)
  | VObject => ([], Raise (TypeError "object is not callable"))
  end.

(** [getattr(obj, name)()] with the call recorded. *)
Definition invoke (redispatch : Instance.t -> outcome) (c : controller_class)
  (obj : Instance.t) (on : target) (name : string) : outcome :=
  match getattr_ c obj name with
  | Raise e => ([], Raise e)
  | Ok v =>
      let (trace, out) := call redispatch obj v in
      (Invoke on name :: trace, out)
  end.

(** [dispatch].  [depth] is the number of nested activations of [dispatch]
    the interpreter still admits; when none is left it raises
    [RecursionError]. *)
Fixpoint dispatch (depth : nat) (r : registry) (c : controller_class)
  (self : Instance.t) : outcome :=
  match depth with
  | O => ([], Raise RecursionError)
  | S depth' =>
      if String.eqb (Instance.command self) "" then
        ([Debug "no command to dispatch"], Ok self)
      else
        match dict_get (Instance.exposed self) (Instance.command self) with
        | None =>
            ([Debug ("no function named " ++ Instance.command self)], Ok self)
        | Some func =>
            let log :=
              Debug ("dispatching command: " ++ FuncDict.controller func
                     ++ "." ++ FuncDict.label func) in
            if String.eqb (FuncDict.controller func) (Meta.label (meta c)) then
              let (trace, out) :=
                invoke (dispatch depth' r c) c self OnSelf (FuncDict.label func) in
              (log :: trace, out)
            else
              match handler_get r (FuncDict.controller func) with
              | Raise e => ([log], Raise e)
              | Ok c' =>
                  let controller := __init__ in
                  let (trace, out) :=
                    invoke (dispatch depth' r c') c' controller
                           (OnFresh (FuncDict.controller func))
                           (FuncDict.label func) in
                  (log :: trace, _ <- out ;; Ok self)
              end
        end
  end.

(** ** Vocabulary of the statements *)

(** An exposed command answers to a token when the token is its key or
    one of its aliases. *)
Definition answers_to (token : string) (entry : string * FuncDict.t) : Prop :=
  fst entry = token \/ In token (FuncDict.aliases (snd entry)).

(** The application of an instance with its argument vector replaced. *)
Definition with_argv (self : Instance.t) (a : App.t) (argv : list string)
  : Instance.t :=
  Instance.with_app self (Some (App.with_argv a argv)).

(** The entry [_collect] builds for the inherited [default]. *)
Definition default_entry (c : controller_class) : FuncDict.t :=
  FuncDict.mk (Meta.label (meta c)) "default" "default command" [] true.

(** [visible] has no key [default]. *)
Definition no_visible_default (s : Instance.t) : Prop :=
  dict_get (Instance.visible s) "default" = None.

(** [exposed] and [hidden] both map [default] to the inherited entry. *)
Definition hidden_default (c : controller_class) (s : Instance.t) : Prop :=
  dict_get (Instance.exposed s) "default" = Some (default_entry c)
  /\ dict_get (Instance.hidden s) "default" = Some (default_entry c).

(** The gate of the first branch of the registry loop: [controller] is
    another controller, has no [stacked_on], is not [base] and is not
    hidden, so [c] lists it as a command. *)
Definition exposes_as_command (c controller : controller_class) : bool :=
  negb (String.eqb (Meta.label (meta controller)) (Meta.label (meta c)))
  && match Meta.stacked_on (meta controller) with
     | Missing => true
     | Bound _ => false
     end
  && negb (String.eqb (Meta.label (meta controller)) "base")
  && negb (truthy (Meta.hide (meta controller))).

(** Two instances that [_collect] cannot tell apart once it has emptied
    its maps: same three maps, and an application on both or on none. *)
Definition same_view (s t : Instance.t) : Prop :=
  Instance.exposed s = Instance.exposed t
  /\ Instance.visible s = Instance.visible t
  /\ Instance.hidden s = Instance.hidden t
  /\ (Instance.app s = None <-> Instance.app t = None).

(** Two runs that, when both return, return instances with the same
    view. *)
Definition res_sim (m1 m2 : res Instance.t) : Prop :=
  match m1, m2 with
  | Ok s, Ok t => same_view s t
  | _, _ => True
  end.

(** The instance as the first four assignments of [_collect] leave it. *)
Definition emptied (self : Instance.t) : Instance.t :=
  Instance.mk (Instance.app self) (Instance.command self)
              (Instance.config self) (Instance.log self) (Instance.pargs self)
              [] [] [] [].

(** The parser takes the specs, one after the other, without raising. *)
Fixpoint accepts (p : Parser.t) (specs : list argspec) : bool :=
  match specs with
  | [] => true
  | spec :: specs' =>
      match Parser.add_argument p spec with
      | Ok p' => accepts p' specs'
      | Raise _ => false
      end
  end.

(** Closes goals about [same_view] once the maps have been rewritten. *)
Ltac same_view_tac :=
  unfold res_sim, same_view in *; simpl in *; intuition (try congruence).

(** ** Where the entries of the maps come from *)

(** The entry the registry loop builds for a controller it lists. *)
Definition controller_entry (controller : controller_class) : FuncDict.t :=
  FuncDict.mk (Meta.label (meta controller)) (Meta.label (meta controller))
              (Meta.description (meta controller)) [] false.

(** The entry the member loop builds for an exposed function. *)
Definition function_entry (c : controller_class) (f : function) (m : marks)
  : FuncDict.t :=
  FuncDict.mk (Meta.label (meta c)) (label f) (m_help m) (m_aliases m) (m_hide m).

(** [f] is what the name [label f] evaluates to on an instance of [c]:
    a function of the class body, or the inherited [default]. *)
Definition own_function (c : controller_class) (f : function) : Prop :=
  in_list (label f) instance_names = false
  /\ (class_lookup c (label f) = Some f
      \/ (f = default /\ class_lookup c "default" = None)).

(** [e], stored under [k], was built from an exposed function of [c]. *)
Definition own_entry (c : controller_class) (k : string) (e : FuncDict.t) : Prop :=
  exists f m,
    own_function c f /\ exposed_marks f = Some m
    /\ k = label f /\ e = function_entry c f m.

(** [e], stored under [k], was built for a registered controller that
    passes the gate of the registry loop. *)
Definition listed_entry (r : registry) (c : controller_class) (k : string)
  (e : FuncDict.t) : Prop :=
  exists controller,
    In controller r /\ exposes_as_command c controller = true
    /\ k = Meta.label (meta controller) /\ e = controller_entry controller.

(** What [_collect] keeps true, key by key, of the values the three maps
    hold under one key. *)
Definition key_ok (r : registry) (c : controller_class) (k : string)
  (oe ov oh : option FuncDict.t) : Prop :=
  (forall e, oe = Some e -> own_entry c k e \/ listed_entry r c k e)
  /\ (forall e, ov = Some e ->
        oe <> None /\ FuncDict.hide e = false
        /\ ((own_entry c k e /\ truthy (Meta.hide (meta c)) = false)
            \/ listed_entry r c k e))
  /\ (forall e, oh = Some e ->
        oe <> None /\ FuncDict.hide e = true /\ own_entry c k e).

Definition maps_ok (r : registry) (c : controller_class) (s : Instance.t) : Prop :=
  forall k,
    key_ok r c k (dict_get (Instance.exposed s) k)
           (dict_get (Instance.visible s) k) (dict_get (Instance.hidden s) k).

(** The gate of the second branch of the registry loop. *)
Definition stacks_on (c controller : controller_class) : bool :=
  negb (String.eqb (Meta.label (meta controller)) (Meta.label (meta c)))
  && match Meta.stacked_on (meta controller) with
     | Missing => false
     | Bound so => stacked_on_is so (Meta.label (meta c))
     end.

(** The argument specs of the controllers stacked on [c], in registry
    order. *)
Definition stacked_arguments (r : registry) (c : controller_class)
  : list argspec :=
  flat_map (fun k => if stacks_on c k then Meta.arguments (meta k) else []) r.

(** The parser with some more specs recorded. *)
Definition grown (p : Parser.t) (specs : list argspec) : Parser.t :=
  Parser.mk (Parser.prog p) (Parser.added p ++ specs)%list
            (Parser.description p) (Parser.usage p) (Parser.raw_formatter p).

(** The application with some more specs recorded in its parser. *)
Definition with_added (a : App.t) (specs : list argspec) : App.t :=
  App.with_args a (grown (App.args a) specs).

(** The text one command contributes to the help. *)
Definition command_block (func : FuncDict.t) : string := command_text "" func.

(** The controllers whose meta has no [stacked_on] attribute. *)
Definition without_stacked_on (r : registry) : registry :=
  filter (fun k => match Meta.stacked_on (meta k) with
                   | Missing => true
                   | Bound _ => false
                   end) r.

Arguments dir_ : simpl never.

(** ** A sample application *)

Module Sample.
Definition parser : Parser.t := Parser.mk "myapp" [] None None false.

Definition app (argv : list string) : App.t :=
    App.mk argv parser "config" "log" None.

  (** A new instance after [self.app = base_app]. *)
Definition instance (argv : list string) : Instance.t :=
    Instance.with_app __init__ (Some (app argv)).

Definition noop : Instance.t -> res Instance.t := fun self => Ok self.

  (** The root controller, with a command [list] known as [ls] and [l]. *)
Definition base : controller_class :=
    mk_class (Meta.mk "base" "My application" [] Missing Missing)
      [expose false "List things" ["ls"; "l"] (def "list" noop)].

  (** A controller stacked on the root, with one visible command. *)
Definition stacked : controller_class :=
    mk_class (Meta.mk "extra" "Extra commands" [] (Bound (Some "base")) Missing)
      [expose false "Go somewhere" [] (def "go" noop)].

  (** A controller whose meta says [stacked_on = None]. *)
Definition unstacked : controller_class :=
    mk_class (Meta.mk "admin" "Administration" [] (Bound None) (Bound false))
      [expose false "Add a user" [] (def "adduser" noop)].

  (** A controller whose meta has no [stacked_on] at all. *)
Definition toplevel : controller_class :=
    mk_class (Meta.mk "tools" "Tools" [] Missing Missing)
      [expose false "Run the tool" [] (def "tools" noop)].

  (** A top-level controller that happens to be called [default]. *)
Definition named_default : controller_class :=
    mk_class (Meta.mk "default" "Defaults" [] Missing Missing) [].

  (** A top-level controller whose label is the empty string. *)
Definition unnamed : controller_class :=
    mk_class (Meta.mk "" "Unnamed" [] Missing Missing) [].

  (** The registries used below. *)
Definition alone : registry := [base].
Definition with_stacked : registry := [base; stacked].
Definition with_unstacked : registry := [base; unstacked].
Definition with_toplevel : registry := [base; toplevel].
Definition with_named_default : registry := [base; named_default].
Definition with_unnamed : registry := [base; unnamed].

  (** The entries [_collect] builds for the commands of [base]. *)
Definition list_entry : FuncDict.t :=
    FuncDict.mk "base" "list" "List things" ["ls"; "l"] false.

  (** The root controller's instance after [_collect] with no other
      controller registered. *)
Definition collected (argv : list string) : Instance.t :=
    Instance.mk (Some (app argv)) "default" None None None
      [("list", list_entry)]
      [("default", default_entry base)]
      [("default", default_entry base); ("list", list_entry)]
      [].

  (** A hidden controller with a command of its own. *)
Definition secret : controller_class :=
    mk_class (Meta.mk "secret" "Secret things" [] Missing (Bound true))
      [expose false "Have a look" [] (def "peek" noop)].

  (** A controller with an argument, and one stacked on it with another. *)
Definition opts : controller_class :=
    mk_class (Meta.mk "opts" "Options"
                [(["--foo"], [("action", "store_true")])] Missing Missing)
      [].

Definition opts_extra : controller_class :=
    mk_class (Meta.mk "more" "More options"
                [(["--bar"], [])] (Bound (Some "opts")) Missing)
      [].

  (** The root controller's instance after [_collect] with [tools]
      registered too. *)
Definition collected_with_tools (argv : list string) : Instance.t :=
    Instance.mk (Some (app argv)) "default" None None None
      [("list", list_entry); ("tools", controller_entry toplevel)]
      [("default", default_entry base)]
      [("default", default_entry base); ("list", list_entry);
       ("tools", controller_entry toplevel)]
      [].

Definition with_secret : registry := [secret; toplevel].

  (** The instance of [secret] after [_collect] with [tools] registered. *)
Definition collected_secret (argv : list string) : Instance.t :=
    Instance.mk (Some (app argv)) "default" None None None
      [("tools", controller_entry toplevel)]
      [("default", default_entry secret)]
      [("default", default_entry secret);
       ("peek", FuncDict.mk "secret" "peek" "Have a look" [] false);
       ("tools", controller_entry toplevel)]
      [].

Definition with_opts : registry := [opts; opts_extra].

  (** The instance of [opts] after [_collect] with the controller stacked
      on it registered: the parser holds both arguments. *)
Definition collected_opts (argv : list string) : Instance.t :=
    Instance.mk
      (Some (App.mk argv
               (Parser.mk "myapp"
                  [(["--foo"], [("action", "store_true")]); (["--bar"], [])]
                  None None false)
               "config" "log" None))
      "default" None None None
      []
      [("default", default_entry opts)]
      [("default", default_entry opts)]
      [].
End Sample.


(** * Properties *)

(** ** Dictionaries *)

Section DictFacts.
Context {V : Type}.
Implicit Types (d : dict V) (k : string) (v : V).

Lemma dict_get_set_same d k v : dict_get (dict_set d k v) k = Some v.
  Proof.
    induction d as [|[k' v'] d IH]; simpl.
    - now rewrite String.eqb_refl.
    - destruct (String.eqb k' k) eqn:E; simpl.
      + now rewrite String.eqb_refl.
      + now rewrite E.
  Qed.

Lemma dict_get_set_other d k k' v :
    k <> k' -> dict_get (dict_set d k v) k' = dict_get d k'.
  Proof.
    intros Hne. induction d as [|[k0 v0] d IH]; simpl.
    - destruct (String.eqb k k') eqn:E; [apply String.eqb_eq in E; contradiction | reflexivity].
    - destruct (String.eqb k0 k) eqn:E; simpl.
      + apply String.eqb_eq in E. subst k0.
        destruct (String.eqb k k') eqn:E'; [apply String.eqb_eq in E'; contradiction | reflexivity].
      + now rewrite IH.
  Qed.

Lemma dict_get_In d k v : dict_get d k = Some v -> In (k, v) d.
  Proof.
    induction d as [|[k0 v0] d IH]; simpl; [discriminate|].
    destruct (String.eqb k0 k) eqn:E.
    - apply String.eqb_eq in E. intros [= ->]. subst. now left.
    - intros H. right. now apply IH.
  Qed.

Lemma dict_get_None_In d k v : dict_get d k = None -> ~ In (k, v) d.
  Proof.
    induction d as [|[k0 v0] d IH]; simpl; [tauto|].
    destruct (String.eqb k0 k) eqn:E; [discriminate|].
    intros H [[= -> _]|Hin].
    - now rewrite String.eqb_refl in E.
    - now apply IH.
  Qed.

Lemma In_dict_get d k v :
    NoDup (dict_keys d) -> In (k, v) d -> dict_get d k = Some v.
  Proof.
    induction d as [|[k0 v0] d IH]; simpl; [tauto|].
    intros Hnd [[= -> ->]|Hin].
    - now rewrite String.eqb_refl.
    - inversion Hnd as [|? ? Hnotin Hnd']; subst.
      destruct (String.eqb k0 k) eqn:E.
      + apply String.eqb_eq in E. subst k0. exfalso. apply Hnotin.
        unfold dict_keys. change k with (fst (k, v)). now apply in_map.
      + now apply IH.
  Qed.
End DictFacts.

Lemma in_list_In x l : in_list x l = true <-> In x l.
Proof.
  unfold in_list. rewrite existsb_exists. split.
  - intros [y [Hin Heq]]. apply String.eqb_eq in Heq. now subst.
  - intros Hin. exists x. split; [assumption | apply String.eqb_refl].
Qed.

(** ** Command resolution *)

Lemma alias_scan_Some token d func :
  alias_scan token d = Some func ->
  exists k, In (k, func) d /\ In token (FuncDict.aliases func).
Proof.
  induction d as [|[k f] d IH]; simpl; [discriminate|].
  destruct (in_list token (FuncDict.aliases f)) eqn:E.
  - intros [= ->]. exists k. split; [now left | now apply in_list_In].
  - intros H. destruct (IH H) as [k' [Hin Hal]]. exists k'. split; [now right | assumption].
Qed.

Lemma alias_scan_None token d :
  alias_scan token d = None ->
  forall k func, In (k, func) d -> ~ In token (FuncDict.aliases func).
Proof.
  induction d as [|[k f] d IH]; simpl; [tauto|].
  destruct (in_list token (FuncDict.aliases f)) eqn:E; [discriminate|].
  intros H k' func [[= -> ->]|Hin].
  - intros Hal. apply in_list_In in Hal. congruence.
  - now apply (IH H k').
Qed.

Lemma alias_scan_absent token d :
  (forall k func, In (k, func) d -> ~ In token (FuncDict.aliases func)) ->
  alias_scan token d = None.
Proof.
  intros H. destruct (alias_scan token d) as [func|] eqn:E; [|reflexivity].
  apply alias_scan_Some in E. destruct E as [k [Hin Hal]].
  exfalso. exact (H k func Hin Hal).
Qed.

(** C2. When the exposed map holds a command [list] with aliases [ls] and
    [l], and no other exposed command answers to [l] or [lx], the chopping
    step of [setup] turns argv [l --foo] into [--foo] and selects [list];
    turns argv [list] into the empty argv and selects [list]; and leaves
    argv [lx] and the selected command [default] as they are. *)
Theorem alias_resolution (self : Instance.t) (a : App.t) (entry : FuncDict.t) :
  NoDup (dict_keys (Instance.exposed self)) ->
  dict_get (Instance.exposed self) "list" = Some entry ->
  FuncDict.label entry = "list" ->
  FuncDict.aliases entry = ["ls"; "l"] ->
  (forall other, In other (Instance.exposed self) -> fst other <> "list" ->
                 ~ answers_to "l" other /\ ~ answers_to "lx" other) ->
  Instance.command self = "default" ->
  chop_command (with_argv self a ["l"; "--foo"])
    = Ok (Instance.with_command (with_argv self a ["--foo"]) "list")
  /\ chop_command (with_argv self a ["list"])
    = Ok (Instance.with_command (with_argv self a []) "list")
  /\ chop_command (with_argv self a ["lx"]) = Ok (with_argv self a ["lx"])
  /\ Instance.command (with_argv self a ["lx"]) = "default".
Proof.
  intros Hnd Hget Hlabel Haliases Hothers Hcmd.
  assert (Hkey : forall k f, In (k, f) (Instance.exposed self) ->
                             k = "list" -> f = entry).
  { intros k f Hin ->. apply (In_dict_get _ _ _ Hnd) in Hin. congruence. }
  assert (Hl : dict_get (Instance.exposed self) "l" = None).
  { destruct (dict_get (Instance.exposed self) "l") as [f|] eqn:E; [|reflexivity].
    apply dict_get_In in E. destruct (Hothers _ E) as [H _]; [discriminate|].
    exfalso. apply H. now left. }
  assert (Hlx : dict_get (Instance.exposed self) "lx" = None).
  { destruct (dict_get (Instance.exposed self) "lx") as [f|] eqn:E; [|reflexivity].
    apply dict_get_In in E. destruct (Hothers _ E) as [_ H]; [discriminate|].
    exfalso. apply H. now left. }
  repeat split.
  - unfold chop_command, with_argv, dict_mem; simpl. rewrite Hl.
    destruct (alias_scan "l" (Instance.exposed self)) as [f|] eqn:E.
    + apply alias_scan_Some in E. destruct E as [k [Hin Hal]].
      destruct (string_dec k "list") as [->|Hne].
      * rewrite (Hkey _ _ Hin eq_refl), Hlabel. reflexivity.
      * destruct (Hothers _ Hin Hne) as [H _]. exfalso. apply H. now right.
    + exfalso. apply (alias_scan_None _ _ E "list" entry).
      * now apply dict_get_In.
      * rewrite Haliases. simpl. tauto.
  - unfold chop_command, with_argv, dict_mem; simpl. now rewrite Hget.
  - unfold chop_command, with_argv, dict_mem; simpl. rewrite Hlx.
    rewrite alias_scan_absent; [reflexivity|].
    intros k f Hin Hal. destruct (string_dec k "list") as [->|Hne].
    + rewrite (Hkey _ _ Hin eq_refl), Haliases in Hal. simpl in Hal.
      destruct Hal as [H|[H|[]]]; discriminate.
    + destruct (Hothers _ Hin Hne) as [_ H]. apply H. now right.
  - exact Hcmd.
Qed.

(** C3. When argv is empty or starts with a token that begins with [-],
    the chopping step of [setup] leaves the application, hence argv,
    untouched and the selected command is still [default]. *)
Theorem option_first_keeps_default (self : Instance.t) (a : App.t) :
  Instance.app self = Some a ->
  Instance.command self = "default" ->
  App.argv a = [] \/
    (exists token rest, App.argv a = token :: rest /\ startswith token "-" = true) ->
  exists self',
    chop_command self = Ok self'
    /\ Instance.app self' = Some a
    /\ Instance.command self' = "default".
Proof.
  intros Happ Hcmd Hargv. exists self. repeat split; try assumption.
  unfold chop_command. rewrite Happ.
  destruct Hargv as [-> | [token [rest [-> Hdash]]]]; [reflexivity|].
  now rewrite Hdash.
Qed.

(** ** Dispatch *)

(** C5. When the selected command is not a key of the exposed map,
    [dispatch] emits one debug message and nothing else: no call is made,
    nothing is raised and the instance is returned as it was. *)
Theorem dispatch_unknown_command (depth : nat) (r : registry)
  (c : controller_class) (self : Instance.t) :
  dict_get (Instance.exposed self) (Instance.command self) = None ->
  exists msg, dispatch (S depth) r c self = ([Debug msg], Ok self).
Proof.
  intros Hmiss. simpl.
  destruct (String.eqb (Instance.command self) "").
  - now exists "no command to dispatch".
  - rewrite Hmiss. now exists ("no function named " ++ Instance.command self).
Qed.

(** C6. Calling [default] on a controller whose class does not define a
    [default] of its own raises [NotImplementedError]. *)
Theorem default_not_implemented (redispatch : Instance.t -> outcome)
  (c : controller_class) (obj : Instance.t) (on : target) :
  class_lookup c "default" = None ->
  invoke redispatch c obj on "default"
    = ([Invoke on "default"], Raise NotImplementedError).
Proof.
  intros Hinherit. unfold invoke, getattr_. simpl. now rewrite Hinherit.
Qed.

(** C7, as amended.  For a selected command that is not the empty string
    and is a key of the exposed map: when the entry names the current
    controller, the function of that name is run on the current instance;
    otherwise the class registered under the entry's controller label is
    looked up, a new instance of it is made and the function is run on
    that instance, the current instance being left as it is. *)
Theorem dispatch_routes (depth : nat) (r : registry) (c : controller_class)
  (self : Instance.t) (func : FuncDict.t) :
  Instance.command self <> "" ->
  dict_get (Instance.exposed self) (Instance.command self) = Some func ->
  let log := Debug ("dispatching command: " ++ FuncDict.controller func
                    ++ "." ++ FuncDict.label func) in
  (FuncDict.controller func = Meta.label (meta c) ->
   forall f, getattr_ c self (FuncDict.label func) = Ok (VFunction f) ->
     dispatch (S depth) r c self
       = ([log; Invoke OnSelf (FuncDict.label func)], body f self))
  /\ (FuncDict.controller func <> Meta.label (meta c) ->
      forall c' f,
        handler_get r (FuncDict.controller func) = Ok c' ->
        getattr_ c' __init__ (FuncDict.label func) = Ok (VFunction f) ->
        dispatch (S depth) r c self
          = ([log; Invoke (OnFresh (FuncDict.controller func)) (FuncDict.label func)],
             _ <- body f __init__ ;; Ok self)).
Proof.
  intros Hcmd Hget log. apply String.eqb_neq in Hcmd. split.
  - intros Hsame f Hattr. simpl. rewrite Hcmd, Hget.
    apply String.eqb_eq in Hsame. rewrite Hsame.
    unfold invoke. rewrite Hattr. reflexivity.
  - intros Hother c' f Hreg Hattr. simpl. rewrite Hcmd, Hget.
    apply String.eqb_neq in Hother. rewrite Hother, Hreg.
    unfold invoke. rewrite Hattr. reflexivity.
Qed.

(** ** Loops *)

Lemma bind_Ok {A B : Type} (m : res A) (k : A -> res B) (b : B) :
  bind m k = Ok b -> exists a, m = Ok a /\ k a = Ok b.
Proof. destruct m as [a|e]; simpl; [now exists a | discriminate]. Qed.

Lemma for_each_app {A S : Type} (body : S -> A -> res S) (xs ys : list A) (s : S) :
  for_each body (xs ++ ys)%list s
    = (s' <- for_each body xs s ;; for_each body ys s').
Proof.
  revert s. induction xs as [|x xs IH]; intros s; simpl; [reflexivity|].
  destruct (body s x) as [s'|e]; simpl; [apply IH | reflexivity].
Qed.

Lemma for_each_cons_inv {A S : Type} (body : S -> A -> res S) (x : A)
  (xs : list A) (s s' : S) :
  for_each body (x :: xs) s = Ok s' ->
  exists s1, body s x = Ok s1 /\ for_each body xs s1 = Ok s'.
Proof. apply bind_Ok. Qed.

Lemma for_each_preserves {A S : Type} (body : S -> A -> res S) (P : S -> Prop)
  (xs : list A) :
  (forall s x s', In x xs -> P s -> body s x = Ok s' -> P s') ->
  forall s s', P s -> for_each body xs s = Ok s' -> P s'.
Proof.
  induction xs as [|x xs IH]; intros Hstep s s' HP; simpl.
  - now intros [= <-].
  - destruct (body s x) as [s1|e] eqn:E; simpl; [|discriminate].
    apply IH.
    + intros s0 y s0' Hin. apply Hstep. now right.
    + apply (Hstep s x s1); [now left | assumption | assumption].
Qed.

Lemma for_each_total {A S : Type} (body : S -> A -> res S) (P : S -> Prop)
  (xs : list A) :
  (forall s x, In x xs -> P s -> exists s', body s x = Ok s' /\ P s') ->
  forall s, P s -> exists s', for_each body xs s = Ok s' /\ P s'.
Proof.
  induction xs as [|x xs IH]; intros Hstep s HP; simpl.
  - now exists s.
  - destruct (Hstep s x (or_introl eq_refl) HP) as [s1 [E HP1]].
    rewrite E. simpl. apply IH; [|assumption].
    intros s0 y Hin. apply Hstep. now right.
Qed.

Lemma res_sim_raise_r (m : res Instance.t) (e : exn) : res_sim m (Raise e).
Proof. destruct m; exact I. Qed.

Lemma res_sim_bind (m1 m2 : res Instance.t)
  (k1 k2 : Instance.t -> res Instance.t) :
  res_sim m1 m2 ->
  (forall s t, same_view s t -> res_sim (k1 s) (k2 t)) ->
  res_sim (bind m1 k1) (bind m2 k2).
Proof.
  intros Hm Hk. destruct m1 as [s|e1]; [|exact I].
  destruct m2 as [t|e2]; simpl; [now apply Hk | apply res_sim_raise_r].
Qed.

Lemma for_each_sim {A : Type} (body : Instance.t -> A -> res Instance.t)
  (xs : list A) :
  (forall s t x, same_view s t -> res_sim (body s x) (body t x)) ->
  forall s t, same_view s t -> res_sim (for_each body xs s) (for_each body xs t).
Proof.
  intros Hstep. induction xs as [|x xs IH]; intros s t Hst; [exact Hst|].
  cbn [for_each]. apply res_sim_bind; [now apply Hstep | exact IH].
Qed.

(** ** The parser *)

Lemma add_argument_Ok (p p' : Parser.t) (spec : argspec) :
  Parser.add_argument p spec = Ok p' -> p' = grown p [spec].
Proof.
  unfold Parser.add_argument.
  destruct (find _ (Parser.option_strings spec)); [discriminate|].
  now intros [= <-].
Qed.

Lemma grown_nil (p : Parser.t) : grown p [] = p.
Proof. destruct p. unfold grown. simpl. now rewrite app_nil_r. Qed.

Lemma grown_app (p : Parser.t) (l1 l2 : list argspec) :
  grown (grown p l1) l2 = grown p (l1 ++ l2)%list.
Proof. unfold grown. simpl. now rewrite app_assoc. Qed.

Lemma with_added_nil a : with_added a [] = a.
Proof. unfold with_added. rewrite grown_nil. now destruct a. Qed.

Lemma with_added_app a l1 l2 :
  with_added (with_added a l1) l2 = with_added a (l1 ++ l2)%list.
Proof. unfold with_added. simpl. now rewrite grown_app. Qed.

Lemma accepts_app (p : Parser.t) (l1 l2 : list argspec) :
  accepts p (l1 ++ l2)%list = accepts p l1 && accepts (grown p l1) l2.
Proof.
  revert p. induction l1 as [|spec l1 IH]; intros p.
  - simpl. now rewrite grown_nil.
  - cbn [app accepts].
    destruct (Parser.add_argument p spec) as [p'|e] eqn:E; [|reflexivity].
    apply add_argument_Ok in E. subst p'.
    rewrite IH, grown_app. reflexivity.
Qed.

(** ** What one step of [_collect] touches *)

Lemma with_app_same (self : Instance.t) :
  Instance.with_app self (Instance.app self) = self.
Proof. now destruct self. Qed.

Lemma add_one_inv self spec self' :
  add_one self spec = Ok self' ->
  exists a,
    Instance.app self = Some a
    /\ Parser.add_argument (App.args a) spec = Ok (grown (App.args a) [spec])
    /\ self' = Instance.with_app self (Some (with_added a [spec])).
Proof.
  unfold add_one. destruct (Instance.app self) as [a|]; [|discriminate].
  destruct (Parser.add_argument (App.args a) spec) as [p|e] eqn:E;
    simpl; [|discriminate].
  intros [= <-]. exists a.
  pose proof (add_argument_Ok _ _ _ E) as Hp. subst p. now repeat split.
Qed.

(** When the argument loop returns, the parser took every spec and holds
    them after what it had. *)
Lemma add_arguments_exact specs :
  forall self a self',
    Instance.app self = Some a ->
    add_arguments specs self = Ok self' ->
    self' = Instance.with_app self (Some (with_added a specs))
    /\ accepts (App.args a) specs = true.
Proof.
  unfold add_arguments.
  induction specs as [|spec specs IH]; intros self a self' Happ H.
  - simpl in H. injection H as <-.
    rewrite with_added_nil, <- Happ, with_app_same. now split.
  - apply for_each_cons_inv in H. destruct H as [s1 [H1 H]].
    apply add_one_inv in H1. destruct H1 as [a0 [Ha0 [Hadd ->]]].
    rewrite Happ in Ha0. injection Ha0 as <-.
    destruct (IH (Instance.with_app self (Some (with_added a [spec])))
                 (with_added a [spec]) self' eq_refl H) as [-> Hacc].
    split.
    + rewrite with_added_app. now destruct self.
    + cbn [accepts]. rewrite Hadd. exact Hacc.
Qed.

Lemma add_arguments_accepts specs :
  forall self a,
    Instance.app self = Some a ->
    accepts (App.args a) specs = true ->
    add_arguments specs self
    = Ok (Instance.with_app self (Some (with_added a specs))).
Proof.
  unfold add_arguments.
  induction specs as [|spec specs IH]; intros self a Happ Hacc.
  - simpl. now rewrite with_added_nil, <- Happ, with_app_same.
  - cbn [accepts] in Hacc. cbn [for_each]. unfold add_one at 1. rewrite Happ.
    destruct (Parser.add_argument (App.args a) spec) as [p|e] eqn:E;
      [|discriminate].
    apply add_argument_Ok in E. subst p. cbn [bind].
    change (App.with_args a (grown (App.args a) [spec]))
      with (with_added a [spec]).
    rewrite (IH (Instance.with_app self (Some (with_added a [spec])))
                (with_added a [spec]) eq_refl Hacc).
    rewrite with_added_app. now destruct self.
Qed.

Lemma add_arguments_no_app specs self self' :
  Instance.app self = None ->
  add_arguments specs self = Ok self' -> self' = self.
Proof.
  unfold add_arguments. intros Happ. destruct specs as [|spec specs]; simpl.
  - now intros [= <-].
  - unfold add_one at 1. rewrite Happ. discriminate.
Qed.

Lemma add_arguments_inv specs self self' :
  add_arguments specs self = Ok self' ->
  exists oa, self' = Instance.with_app self oa
             /\ (oa = None <-> Instance.app self = None).
Proof.
  intros H. destruct (Instance.app self) as [a|] eqn:Happ.
  - destruct (add_arguments_exact specs self a self' Happ H) as [-> _].
    eexists. split; [reflexivity|]. split; discriminate.
  - apply (add_arguments_no_app specs self self' Happ) in H. subst self'.
    exists None. rewrite <- Happ, with_app_same. rewrite Happ. tauto.
Qed.

Lemma class_lookup_name c name f :
  class_lookup c name = Some f -> __name__ f = name.
Proof.
  unfold class_lookup. intros H. apply find_some in H.
  now apply String.eqb_eq.
Qed.

Lemma class_lookup_None c name :
  class_lookup c name = None -> ~ In name (map __name__ (functions c)).
Proof.
  unfold class_lookup. intros H Hin. apply in_map_iff in Hin.
  destruct Hin as [f [Hname Hin]]. apply in_rev in Hin.
  apply (find_none _ _ H) in Hin. rewrite Hname, String.eqb_refl in Hin.
  discriminate.
Qed.

Lemma getattr_function c self name f :
  getattr_ c self name = Ok (VFunction f) ->
  class_lookup c name = Some f
  \/ (name = "default" /\ f = default /\ class_lookup c name = None).
Proof.
  unfold getattr_.
  destruct (in_list name instance_names); [discriminate|].
  destruct (class_lookup c name) as [g|]; [intros [= ->]; now left|].
  destruct (String.eqb name "default") eqn:E.
  { apply String.eqb_eq in E. intros [= <-]. right. now repeat split. }
  repeat match goal with
         | |- context [if ?b then _ else _] => destruct b; try discriminate
         end.
  unfold bind. destruct (usage_text c self); discriminate.
Qed.

Lemma getattr_same_view c s t name :
  (Instance.app s = None <-> Instance.app t = None) ->
  getattr_ c s name = getattr_ c t name.
Proof.
  intros Happ. unfold getattr_, usage_text.
  destruct (Instance.app s) as [a|], (Instance.app t) as [b|];
    try reflexivity.
  - repeat match goal with
           | |- context [if ?b then _ else _] => destruct b; try reflexivity
           end;
    destruct (class_lookup c name); reflexivity.
  - destruct Happ as [_ H]. specialize (H eq_refl). discriminate.
  - destruct Happ as [H _]. specialize (H eq_refl). discriminate.
Qed.

Lemma In_insert_name x y l : In y (insert_name x l) <-> y = x \/ In y l.
Proof.
  induction l as [|z l IH]; simpl.
  - intuition.
  - destruct (String.compare x z) eqn:E; simpl.
    + apply String.compare_eq_iff in E. subst z. intuition.
    + intuition.
    + rewrite IH. intuition.
Qed.

Lemma In_dir c name :
  In name (dir_ c)
  <-> In name (instance_names ++ base_names ++ map __name__ (functions c))%list.
Proof.
  unfold dir_.
  induction (instance_names ++ base_names ++ map __name__ (functions c))%list
    as [|x l IH]; simpl; [tauto|].
  rewrite In_insert_name, IH. intuition.
Qed.

Lemma default_in_dir c : In "default" (dir_ c).
Proof. apply In_dir. simpl. tauto. Qed.

(** Every name [dir] lists can be read, except that the [usage_text]
    property needs the application. *)
Lemma getattr_dir c self name :
  In name (dir_ c) ->
  (exists v, getattr_ c self name = Ok v)
  \/ (name = "usage_text" /\ class_lookup c "usage_text" = None
      /\ Instance.app self = None
      /\ getattr_ c self name = Raise (AttributeError "args")).
Proof.
  intros Hin. apply In_dir in Hin. unfold getattr_.
  destruct (in_list name instance_names) eqn:Einst;
    [left; eexists; reflexivity|].
  destruct (class_lookup c name) as [f|] eqn:Elook;
    [left; eexists; reflexivity|].
  apply in_app_or in Hin. destruct Hin as [Hin|Hin].
  { apply in_list_In in Hin. congruence. }
  apply in_app_or in Hin. destruct Hin as [Hin|Hin].
  - cbn [base_names In] in Hin.
    destruct Hin as [<-|[<-|[<-|[<-|[<-|[<-|[<-|[]]]]]]]];
      try (left; eexists; reflexivity).
    cbn [String.eqb Ascii.eqb Bool.eqb]. unfold usage_text.
    destruct (Instance.app self) as [a|] eqn:Happ.
    + left. destruct (String.eqb (Meta.label (meta c)) "base");
        eexists; reflexivity.
    + right. auto.
  - exfalso. now apply (class_lookup_None c name).
Qed.

Lemma getattr_total c self a name :
  Instance.app self = Some a ->
  In name (dir_ c) -> exists v, getattr_ c self name = Ok v.
Proof.
  intros Happ Hin. destruct (getattr_dir c self name Hin) as [H|[_ [_ [H _]]]];
    [assumption | congruence].
Qed.

(** What one pass of the member loop does to the instance. *)
Lemma collect_member_cases c s member s' :
  collect_member c s member = Ok s' ->
  s' = s
  \/ exists f m,
       getattr_ c s member = Ok (VFunction f)
       /\ exposed_marks f = Some m
       /\ Instance.app s' = Instance.app s
       /\ Instance.command s' = Instance.command s
       /\ Instance.exposed s'
          = dict_set (Instance.exposed s) (label f)
              (FuncDict.mk (Meta.label (meta c)) (label f) (m_help m)
                           (m_aliases m) (m_hide m))
       /\ ((m_hide m = true
            /\ Instance.hidden s'
               = dict_set (Instance.hidden s) (label f)
                   (FuncDict.mk (Meta.label (meta c)) (label f) (m_help m)
                                (m_aliases m) (m_hide m))
            /\ Instance.visible s' = Instance.visible s)
           \/ (m_hide m = false
               /\ Instance.hidden s' = Instance.hidden s
               /\ (Instance.visible s' = Instance.visible s
                   \/ Instance.visible s'
                      = dict_set (Instance.visible s) (label f)
                          (FuncDict.mk (Meta.label (meta c)) (label f) (m_help m)
                                       (m_aliases m) (m_hide m))))).
Proof.
  unfold collect_member.
  destruct (in_list member ignored || startswith member "_");
    [intros [= <-]; now left|].
  destruct (getattr_ c s member) as [v|e] eqn:Eattr; simpl; [|discriminate].
  destruct v as [f| | | |]; try (intros [= <-]; now left).
  destruct (exposed_marks f) as [m|] eqn:Em; [|intros [= <-]; now left].
  destruct (m_hide m) eqn:Eh.
  - intros [= <-]. right. exists f, m. simpl. rewrite Eh. intuition.
  - destruct (negb (truthy (Meta.hide (meta c)))); intros [= <-];
      right; exists f, m; simpl; rewrite Eh; intuition.
Qed.

Lemma collect_member_app c s member s' :
  collect_member c s member = Ok s' ->
  Instance.app s' = Instance.app s /\ Instance.command s' = Instance.command s.
Proof.
  intros H. apply collect_member_cases in H.
  destruct H as [->|[f [m [_ [_ [Ha [Hc _]]]]]]]; [now split | now split].
Qed.

(** A member that can be read is collected without an exception. *)
Lemma collect_member_reads c s member v :
  getattr_ c s member = Ok v -> exists s', collect_member c s member = Ok s'.
Proof.
  intros Hattr. unfold collect_member.
  destruct (in_list member ignored || startswith member "_");
    [eexists; reflexivity|].
  rewrite Hattr. cbn [bind].
  destruct v as [f| | | |]; try (eexists; reflexivity).
  destruct (exposed_marks f) as [m|]; [|eexists; reflexivity].
  destruct (m_hide m); [eexists; reflexivity|].
  destruct (negb (truthy (Meta.hide (meta c)))); eexists; reflexivity.
Qed.

Lemma collect_member_total c s a member :
  Instance.app s = Some a -> In member (dir_ c) ->
  exists s', collect_member c s member = Ok s'.
Proof.
  intros Happ Hin. destruct (getattr_total c s a member Happ Hin) as [v Hattr].
  exact (collect_member_reads c s member v Hattr).
Qed.

Lemma collect_member_sim c s t member :
  same_view s t ->
  res_sim (collect_member c s member) (collect_member c t member).
Proof.
  intros Hst. assert (Ha := proj2 (proj2 (proj2 Hst))). unfold collect_member.
  destruct (in_list member ignored || startswith member "_");
    [exact Hst|].
  rewrite (getattr_same_view c s t member Ha).
  destruct (getattr_ c t member) as [v|e]; [|exact I]. cbn [bind].
  destruct v as [f| | | |]; try exact Hst.
  destruct (exposed_marks f) as [m|]; [|exact Hst].
  destruct Hst as [He [Hv [Hh Ha']]].
  destruct (m_hide m).
  - unfold res_sim, same_view. simpl. rewrite He, Hh. auto.
  - destruct (negb (truthy (Meta.hide (meta c))));
      unfold res_sim, same_view; simpl; rewrite He, ?Hv; auto.
Qed.

(** A stacked controller is instantiated, not collected: its [visible]
    map is the empty one [__init__] made, and the merge loop has nothing
    to walk. *)
Lemma collect_controller_bound c s controller so s' :
  Meta.stacked_on (meta controller) = Bound so ->
  collect_controller c s controller = Ok s' ->
  Instance.exposed s' = Instance.exposed s
  /\ Instance.visible s' = Instance.visible s
  /\ Instance.hidden s' = Instance.hidden s
  /\ Instance.command s' = Instance.command s
  /\ (Instance.app s' = None <-> Instance.app s = None).
Proof.
  intros Hso. unfold collect_controller. rewrite Hso.
  destruct (String.eqb (Meta.label (meta controller)) (Meta.label (meta c)));
    [intros [= <-]; intuition|].
  destruct (stacked_on_is so (Meta.label (meta c))); [|intros [= <-]; intuition].
  intros H. apply bind_Ok in H. destruct H as [s1 [E H]].
  cbn [fold_left Instance.visible __init__] in H. injection H as <-.
  apply add_arguments_inv in E. destruct E as [oa [-> Hoa]].
  simpl. intuition.
Qed.

(** What one pass of the registry loop does to the instance. *)
Lemma collect_controller_cases c s controller s' :
  collect_controller c s controller = Ok s' ->
  Instance.command s' = Instance.command s
  /\ (Instance.app s' = None <-> Instance.app s = None)
  /\ ((Instance.exposed s' = Instance.exposed s
       /\ Instance.visible s' = Instance.visible s
       /\ Instance.hidden s' = Instance.hidden s
       /\ exposes_as_command c controller = false)
      \/ (exposes_as_command c controller = true
          /\ Instance.hidden s' = Instance.hidden s
          /\ Instance.exposed s'
             = dict_set (Instance.exposed s) (Meta.label (meta controller))
                 (FuncDict.mk (Meta.label (meta controller))
                              (Meta.label (meta controller))
                              (Meta.description (meta controller)) [] false)
          /\ Instance.visible s'
             = dict_set (Instance.visible s) (Meta.label (meta controller))
                 (FuncDict.mk (Meta.label (meta controller))
                              (Meta.label (meta controller))
                              (Meta.description (meta controller)) [] false))).
Proof.
  destruct (Meta.stacked_on (meta controller)) as [|so] eqn:Hso.
  - unfold collect_controller, exposes_as_command. rewrite Hso.
    destruct (String.eqb (Meta.label (meta controller)) (Meta.label (meta c)));
      simpl; [intros [= <-]; intuition|].
    destruct (String.eqb (Meta.label (meta controller)) "base");
      simpl; [intros [= <-]; intuition|].
    destruct (negb (truthy (Meta.hide (meta controller))));
      simpl; intros [= <-]; simpl; intuition.
  - intros H. destruct (collect_controller_bound _ _ _ _ _ Hso H)
      as [He [Hv [Hh [Hc Ha]]]].
    repeat split; try tauto. left. repeat split; try assumption.
    unfold exposes_as_command. rewrite Hso.
    now rewrite andb_false_r.
Qed.

(** One pass of the registry loop gives the parser the arguments of a
    controller stacked on [c], and nothing otherwise. *)
Lemma collect_controller_app c s a controller s' :
  Instance.app s = Some a ->
  collect_controller c s controller = Ok s' ->
  Instance.app s'
  = Some (with_added a (if stacks_on c controller
                        then Meta.arguments (meta controller) else []))
  /\ Instance.arguments s' = Instance.arguments s
  /\ accepts (App.args a) (if stacks_on c controller
                           then Meta.arguments (meta controller) else []) = true.
Proof.
  intros Happ. unfold collect_controller, stacks_on.
  destruct (String.eqb (Meta.label (meta controller)) (Meta.label (meta c)));
    cbn [negb andb]; [intros [= <-]; now rewrite with_added_nil|].
  destruct (Meta.stacked_on (meta controller)) as [|so].
  - destruct (String.eqb (Meta.label (meta controller)) "base");
      [intros [= <-]; now rewrite with_added_nil|].
    destruct (negb (truthy (Meta.hide (meta controller))));
      intros [= <-]; simpl; now rewrite with_added_nil.
  - destruct (stacked_on_is so (Meta.label (meta c)));
      [|intros [= <-]; now rewrite with_added_nil].
    intros H. apply bind_Ok in H. destruct H as [s1 [E H]].
    cbn [fold_left Instance.visible __init__] in H. injection H as <-.
    destruct (add_arguments_exact _ s a s1 Happ E) as [-> Hacc].
    now repeat split.
Qed.

Lemma collect_controller_total c s a controller :
  Instance.app s = Some a ->
  accepts (App.args a) (if stacks_on c controller
                        then Meta.arguments (meta controller) else []) = true ->
  exists s', collect_controller c s controller = Ok s'.
Proof.
  intros Happ. unfold collect_controller, stacks_on.
  destruct (String.eqb (Meta.label (meta controller)) (Meta.label (meta c)));
    cbn [negb andb]; [eexists; reflexivity|].
  destruct (Meta.stacked_on (meta controller)) as [|so].
  - destruct (String.eqb (Meta.label (meta controller)) "base");
      [eexists; reflexivity|].
    destruct (negb (truthy (Meta.hide (meta controller)))); eexists; reflexivity.
  - destruct (stacked_on_is so (Meta.label (meta c))); [|eexists; reflexivity].
    intros Hacc.
    rewrite (add_arguments_accepts _ s a Happ Hacc). eexists. reflexivity.
Qed.

Lemma add_one_sim s t spec :
  same_view s t -> res_sim (add_one s spec) (add_one t spec).
Proof.
  intros [He [Hv [Hh Ha]]]. unfold add_one.
  destruct (Instance.app s) as [a|]; [|exact I].
  destruct (Instance.app t) as [b|];
    [|destruct (Parser.add_argument (App.args a) spec); exact I].
  destruct (Parser.add_argument (App.args a) spec); [|exact I].
  destruct (Parser.add_argument (App.args b) spec); [|exact I].
  unfold res_sim, same_view. simpl. repeat split; auto; discriminate.
Qed.

Lemma add_arguments_sim specs s t :
  same_view s t -> res_sim (add_arguments specs s) (add_arguments specs t).
Proof.
  unfold add_arguments. apply for_each_sim. intros s0 t0 spec.
  apply add_one_sim.
Qed.

Lemma collect_controller_sim c s t controller :
  same_view s t ->
  res_sim (collect_controller c s controller) (collect_controller c t controller).
Proof.
  intros Hst. unfold collect_controller.
  destruct (String.eqb (Meta.label (meta controller)) (Meta.label (meta c)));
    [exact Hst|].
  destruct (Meta.stacked_on (meta controller)) as [|so].
  - destruct (String.eqb (Meta.label (meta controller)) "base"); [exact Hst|].
    destruct Hst as [He [Hv [Hh Ha]]].
    destruct (negb (truthy (Meta.hide (meta controller))));
      unfold res_sim, same_view; simpl; rewrite ?He, ?Hv; auto.
  - destruct (stacked_on_is so (Meta.label (meta c))); [|exact Hst].
    apply res_sim_bind; [now apply add_arguments_sim|].
    intros s1 t1 H1. exact H1.
Qed.

(** ** [_collect] as a whole *)

Lemma collect_unfold r c self :
  _collect r c self
  = (s1 <- add_arguments (Meta.arguments (meta c)) (emptied self) ;;
     s2 <- for_each (collect_member c) (dir_ c) s1 ;;
     for_each (collect_controller c) (handler_list r) s2).
Proof. reflexivity. Qed.

Lemma collect_inv r c self self' :
  _collect r c self = Ok self' ->
  exists s1 s2,
    add_arguments (Meta.arguments (meta c)) (emptied self) = Ok s1
    /\ for_each (collect_member c) (dir_ c) s1 = Ok s2
    /\ for_each (collect_controller c) (handler_list r) s2 = Ok self'.
Proof.
  rewrite collect_unfold. intros H.
  apply bind_Ok in H. destruct H as [s1 [H1 H]].
  apply bind_Ok in H. destruct H as [s2 [H2 H]].
  now exists s1, s2.
Qed.

(** The member loop leaves the application and the [arguments] attribute
    alone and never fails once the application is set. *)
Lemma members_app c s s' :
  for_each (collect_member c) (dir_ c) s = Ok s' ->
  Instance.app s' = Instance.app s
  /\ Instance.command s' = Instance.command s.
Proof.
  apply (for_each_preserves (collect_member c)
           (fun s0 => Instance.app s0 = Instance.app s
                      /\ Instance.command s0 = Instance.command s) (dir_ c));
    [|now split].
  intros s0 member s0' _ [Ha Hc] H. apply collect_member_app in H.
  destruct H as [Ha' Hc']. split; congruence.
Qed.

Lemma members_total c s a :
  Instance.app s = Some a ->
  exists s', for_each (collect_member c) (dir_ c) s = Ok s'.
Proof.
  intros Happ.
  destruct (for_each_total (collect_member c)
              (fun s0 => Instance.app s0 = Some a) (dir_ c)) with (s := s)
    as [s' [H _]]; [|assumption|now exists s'].
  intros s0 member Hin Hs0.
  destruct (collect_member_total c s0 a member Hs0 Hin) as [s1 E].
  exists s1. split; [assumption|].
  apply collect_member_app in E. destruct E as [-> _]. assumption.
Qed.

(** The registry loop gives the parser the arguments of the controllers
    stacked on [c], in registry order. *)
Lemma controllers_app c (r : registry) :
  forall s a s',
    Instance.app s = Some a ->
    for_each (collect_controller c) r s = Ok s' ->
    Instance.app s' = Some (with_added a (stacked_arguments r c))
    /\ Instance.arguments s' = Instance.arguments s
    /\ Instance.command s' = Instance.command s
    /\ accepts (App.args a) (stacked_arguments r c) = true.
Proof.
  induction r as [|k r IH]; intros s a s' Happ H.
  - simpl in H. injection H as <-. simpl. now rewrite with_added_nil.
  - apply for_each_cons_inv in H. destruct H as [s1 [H1 H2]].
    destruct (collect_controller_app c s a k s1 Happ H1) as [Happ1 [Hargs1 Hacc1]].
    destruct (IH s1 _ s' Happ1 H2) as [Happ' [Hargs' [Hcmd' Hacc']]].
    apply collect_controller_cases in H1. destruct H1 as [Hcmd1 _].
    cbn [stacked_arguments flat_map].
    fold (stacked_arguments r c).
    repeat split; try congruence.
    + rewrite Happ', with_added_app. reflexivity.
    + rewrite accepts_app, Hacc1. exact Hacc'.
Qed.

Lemma controllers_total c (r : registry) :
  forall s a,
    Instance.app s = Some a ->
    accepts (App.args a) (stacked_arguments r c) = true ->
    exists s', for_each (collect_controller c) r s = Ok s'.
Proof.
  induction r as [|k r IH]; intros s a Happ Hacc.
  - now exists s.
  - cbn [stacked_arguments flat_map] in Hacc. fold (stacked_arguments r c) in Hacc.
    rewrite accepts_app in Hacc. apply andb_prop in Hacc.
    destruct Hacc as [Hacc1 Hacc2].
    destruct (collect_controller_total c s a k Happ Hacc1) as [s1 E1].
    destruct (collect_controller_app c s a k s1 Happ E1) as [Happ1 _].
    destruct (IH s1 _ Happ1 Hacc2) as [s' E].
    exists s'. cbn [for_each]. rewrite E1. exact E.
Qed.

(** When [_collect] returns, the parser has taken the arguments of the
    controller and then those of the controllers stacked on it. *)
Lemma collect_app r c self a self' :
  Instance.app self = Some a ->
  _collect r c self = Ok self' ->
  Instance.app self'
  = Some (with_added a (Meta.arguments (meta c) ++ stacked_arguments r c))
  /\ Instance.arguments self' = []
  /\ Instance.command self' = Instance.command self
  /\ accepts (App.args a) (Meta.arguments (meta c) ++ stacked_arguments r c)%list
     = true.
Proof.
  intros Happ H. apply collect_inv in H.
  destruct H as [s1 [s2 [H1 [H2 H3]]]].
  destruct (add_arguments_exact _ (emptied self) a s1 Happ H1) as [-> Hacc1].
  assert (Hargs2 : Instance.arguments s2 = []).
  { apply (for_each_preserves (collect_member c)
             (fun s => Instance.arguments s = []) (dir_ c)) in H2;
      [assumption | | reflexivity].
    intros s member s' _ Hs H. unfold collect_member in H.
    destruct (in_list member ignored || startswith member "_");
      [now injection H as <-|].
    apply bind_Ok in H. destruct H as [v [_ H]].
    destruct v as [f| | | |]; try (now injection H as <-).
    destruct (exposed_marks f) as [m|]; [|now injection H as <-].
    destruct (m_hide m); [now injection H as <-|].
    destruct (negb (truthy (Meta.hide (meta c)))); now injection H as <-. }
  destruct (members_app c _ s2 H2) as [Happ2 Hcmd2]. simpl in Happ2, Hcmd2.
  destruct (controllers_app c (handler_list r) s2 _ self' Happ2 H3)
    as [Happ' [Hargs' [Hcmd' Hacc']]].
  unfold handler_list in *.
  repeat split; try congruence.
  - rewrite Happ', with_added_app. reflexivity.
  - rewrite accepts_app, Hacc1. exact Hacc'.
Qed.

(** With an application set, [_collect] runs to its end exactly when the
    parser takes the arguments it is given. *)
Lemma collect_total r c self a :
  Instance.app self = Some a ->
  accepts (App.args a) (Meta.arguments (meta c) ++ stacked_arguments r c)%list
  = true ->
  exists self', _collect r c self = Ok self'.
Proof.
  intros Happ Hacc. rewrite accepts_app in Hacc. apply andb_prop in Hacc.
  destruct Hacc as [Hacc1 Hacc2].
  rewrite collect_unfold.
  rewrite (add_arguments_accepts _ (emptied self) a Happ Hacc1). cbn [bind].
  destruct (members_total c (Instance.with_app (emptied self)
                               (Some (with_added a (Meta.arguments (meta c)))))
              _ eq_refl) as [s2 E2].
  rewrite E2. cbn [bind].
  destruct (members_app c _ s2 E2) as [Happ2 _]. simpl in Happ2.
  exact (controllers_total c (handler_list r) s2 _ Happ2 Hacc2).
Qed.

(** [_collect] never touches the selected command, and gives the instance
    an application only if it had one. *)
Lemma collect_keeps r c self self' :
  _collect r c self = Ok self' ->
  Instance.command self' = Instance.command self
  /\ (Instance.app self' = None <-> Instance.app self = None).
Proof.
  intros H. apply collect_inv in H. destruct H as [s1 [s2 [H1 [H2 H3]]]].
  apply add_arguments_inv in H1. destruct H1 as [oa [-> Hoa]]. simpl in Hoa.
  destruct (members_app c _ s2 H2) as [Happ2 Hcmd2]. simpl in Happ2, Hcmd2.
  assert (H : Instance.command self' = Instance.command s2
              /\ (Instance.app self' = None <-> Instance.app s2 = None)).
  { apply (for_each_preserves (collect_controller c)
             (fun s => Instance.command s = Instance.command s2
                       /\ (Instance.app s = None <-> Instance.app s2 = None))
             (handler_list r)) with (s := s2); [| tauto | assumption].
    intros s k s' _ [Hc Ha] E. apply collect_controller_cases in E.
    destruct E as [Hc' [Ha' _]]. split; [congruence | tauto]. }
  destruct H as [Hc Ha]. rewrite Hc, Hcmd2. split; [reflexivity|].
  rewrite Ha, Happ2. exact Hoa.
Qed.

(** The maps [_collect] builds depend on the instance only through the
    presence of an application. *)
Lemma collect_sim r c s t :
  (Instance.app s = None <-> Instance.app t = None) ->
  res_sim (_collect r c s) (_collect r c t).
Proof.
  intros Ha. rewrite !collect_unfold.
  apply res_sim_bind.
  - apply add_arguments_sim. unfold same_view, emptied. simpl. tauto.
  - intros s1 t1 H1. apply res_sim_bind.
    + apply for_each_sim; [apply collect_member_sim | assumption].
    + intros s2 t2 H2.
      apply for_each_sim; [apply collect_controller_sim | assumption].
Qed.

(** Two runs of [_collect] that both return build the same maps. *)
Lemma collect_twice r c self once twice :
  _collect r c self = Ok once ->
  _collect r c once = Ok twice ->
  Instance.exposed twice = Instance.exposed once
  /\ Instance.visible twice = Instance.visible once
  /\ Instance.hidden twice = Instance.hidden once.
Proof.
  intros E1 E2.
  assert (Hsim : res_sim (_collect r c once) (_collect r c self)).
  { apply collect_sim. destruct (collect_keeps r c self once E1) as [_ H].
    exact H. }
  rewrite E1, E2 in Hsim. destruct Hsim as [He [Hv [Hh _]]]. auto.
Qed.

(** C9, as amended.  [_collect] run twice in a row on the same instance
    with the same registry: whenever both runs return, the second leaves
    the [exposed], [visible] and [hidden] maps of the first; and both do
    return, on an instance whose application is set, when neither the
    controller nor a controller stacked on it declares arguments. *)
Theorem collect_idempotent (r : registry) (c : controller_class)
  (self : Instance.t) (a : App.t) :
  Instance.app self = Some a ->
  (forall once twice,
     _collect r c self = Ok once ->
     _collect r c once = Ok twice ->
     Instance.exposed twice = Instance.exposed once
     /\ Instance.visible twice = Instance.visible once
     /\ Instance.hidden twice = Instance.hidden once)
  /\ (Meta.arguments (meta c) = [] ->
      stacked_arguments r c = [] ->
      exists once twice,
        _collect r c self = Ok once
        /\ _collect r c once = Ok twice
        /\ Instance.exposed twice = Instance.exposed once
        /\ Instance.visible twice = Instance.visible once
        /\ Instance.hidden twice = Instance.hidden once).
Proof.
  intros Happ. split.
  - intros once twice. apply collect_twice.
  - intros Hown Hstacked.
    assert (Hacc : forall p, accepts p (Meta.arguments (meta c)
                                         ++ stacked_arguments r c)%list = true).
    { intros p. now rewrite Hown, Hstacked. }
    destruct (collect_total r c self a Happ (Hacc _)) as [once E1].
    destruct (collect_app r c self a once Happ E1) as [Happ1 _].
    destruct (collect_total r c once _ Happ1 (Hacc _)) as [twice E2].
    exists once, twice. split; [assumption|]. split; [assumption|].
    exact (collect_twice r c self once twice E1 E2).
Qed.

(** ** The inherited [default] command *)

Section InheritedDefault.
Variable c : controller_class.
Hypothesis inherited : class_lookup c "default" = None.

Lemma member_function_label s member f :
  getattr_ c s member = Ok (VFunction f) ->
  f = default \/ label f <> "default".
Proof.
  intros H. apply getattr_function in H.
  destruct H as [H|[_ [-> _]]]; [|now left].
  right. unfold label. rewrite (class_lookup_name _ _ _ H).
  intros ->. congruence.
Qed.

Lemma member_keeps_visible s member s' :
  collect_member c s member = Ok s' ->
  no_visible_default s -> no_visible_default s'.
Proof.
  unfold no_visible_default. intros H Hv. apply collect_member_cases in H.
  destruct H as [->|[f [m [Hattr [Hm [_ [_ [_ Hsplit]]]]]]]]; [assumption|].
  destruct Hsplit as [[_ [_ ->]]|[Hh [_ [->| ->]]]]; try assumption.
  destruct (member_function_label _ _ _ Hattr) as [->|Hne].
  - simpl in Hm. injection Hm as <-. discriminate.
  - now rewrite dict_get_set_other.
Qed.

Lemma member_keeps_hidden s member s' :
  collect_member c s member = Ok s' ->
  hidden_default c s -> hidden_default c s'.
Proof.
  unfold hidden_default. intros H [He Hh]. apply collect_member_cases in H.
  destruct H as [->|[f [m [Hattr [Hm [_ [_ [-> Hsplit]]]]]]]]; [now split|].
  destruct (member_function_label _ _ _ Hattr) as [->|Hne].
  - simpl in Hm. injection Hm as <-. simpl in *.
    destruct Hsplit as [[_ [-> _]]|[Hfalse _]]; [|discriminate].
    unfold label, default_entry. simpl. now rewrite !dict_get_set_same.
  - rewrite dict_get_set_other by assumption. split; [assumption|].
    destruct Hsplit as [[_ [-> _]]|[_ [-> _]]]; [|assumption].
    now rewrite dict_get_set_other.
Qed.

Lemma member_default_hidden s s' :
  collect_member c s "default" = Ok s' -> hidden_default c s'.
Proof.
  unfold collect_member, getattr_. simpl. rewrite inherited. simpl.
  intros [= <-]. unfold hidden_default, default_entry, label. simpl.
  now rewrite !dict_get_set_same.
Qed.

Lemma members_collect_default s s' :
  no_visible_default s ->
  for_each (collect_member c) (dir_ c) s = Ok s' ->
  no_visible_default s' /\ hidden_default c s'.
Proof.
  intros Hv H. split.
  - apply (for_each_preserves (collect_member c) no_visible_default (dir_ c))
      with (s := s); [|assumption|assumption].
    intros s0 member s0' _ Hv0 E. exact (member_keeps_visible _ _ _ E Hv0).
  - destruct (in_split _ _ (default_in_dir c)) as [before [after Hdir]].
    rewrite Hdir, for_each_app in H.
    apply bind_Ok in H. destruct H as [s1 [_ H]].
    apply for_each_cons_inv in H. destruct H as [s2 [E2 H]].
    apply (for_each_preserves (collect_member c) (hidden_default c) after)
      with (s := s2); [| exact (member_default_hidden _ _ E2) | assumption].
    intros s0 member s0' _ Hh0 E. exact (member_keeps_hidden _ _ _ E Hh0).
Qed.

Lemma controller_keeps_default s controller s' :
  (exposes_as_command c controller = true ->
   Meta.label (meta controller) <> "default") ->
  collect_controller c s controller = Ok s' ->
  no_visible_default s /\ hidden_default c s ->
  no_visible_default s' /\ hidden_default c s'.
Proof.
  unfold no_visible_default, hidden_default.
  intros Hlabel H [Hv [He Hh]]. apply collect_controller_cases in H.
  destruct H as [_ [_ [[-> [-> [-> _]]]|[Hgate [-> [-> ->]]]]]]; [tauto|].
  specialize (Hlabel Hgate).
  rewrite !dict_get_set_other by assumption. tauto.
Qed.

End InheritedDefault.

Lemma collect_hidden_default r c self self' :
  class_lookup c "default" = None ->
  (forall controller, In controller r ->
     exposes_as_command c controller = true ->
     Meta.label (meta controller) <> "default") ->
  _collect r c self = Ok self' ->
  no_visible_default self' /\ hidden_default c self'.
Proof.
  intros inherited Hreg E. apply collect_inv in E.
  destruct E as [s1 [s2 [E1 [E2 E3]]]].
  apply add_arguments_inv in E1. destruct E1 as [oa [-> _]].
  apply (members_collect_default c inherited) in E2; [|reflexivity].
  apply (for_each_preserves (collect_controller c)
           (fun s => no_visible_default s /\ hidden_default c s)
           (handler_list r)) with (s := s2); [|assumption|assumption].
  intros s controller s' Hin Hs Es.
  apply (controller_keeps_default c s controller s'); auto.
Qed.

(** C10, as amended.  For a controller that keeps the inherited
    [default], and provided no controller the registry loop lists as a
    command is labelled [default]: when [_collect] returns, [exposed] maps
    [default] to an entry marked hidden, [hidden] maps [default] to that
    same entry, [visible] has no key [default], and so a lookup of
    [default] in [exposed] succeeds. *)
Theorem default_stays_hidden (r : registry) (c : controller_class)
  (self self' : Instance.t) :
  class_lookup c "default" = None ->
  (forall controller, In controller r ->
     exposes_as_command c controller = true ->
     Meta.label (meta controller) <> "default") ->
  _collect r c self = Ok self' ->
  dict_get (Instance.exposed self') "default" = Some (default_entry c)
  /\ FuncDict.hide (default_entry c) = true
  /\ dict_get (Instance.hidden self') "default" = Some (default_entry c)
  /\ dict_get (Instance.visible self') "default" = None
  /\ dict_mem (Instance.exposed self') "default" = true.
Proof.
  intros inherited Hreg E.
  destruct (collect_hidden_default r c self self' inherited Hreg E)
    as [Hv [He Hh]].
  unfold dict_mem. rewrite He. now repeat split.
Qed.

(** ** Help text *)

Lemma append_assoc (a b c : string) : (a ++ b) ++ c = a ++ b ++ c.
Proof. induction a as [|x a IH]; simpl; [reflexivity | now rewrite IH]. Qed.

Lemma lines_not_nil s : lines s <> [].
Proof.
  destruct s as [|c s]; simpl; [discriminate|].
  destruct (is_newline c); [discriminate|].
  destruct (lines s); discriminate.
Qed.

(** Splitting commutes with putting a line break between two texts. *)
Lemma lines_append a b : lines (a ++ nl ++ b) = (lines a ++ lines b)%list.
Proof.
  induction a as [|c a IH]; [reflexivity|].
  change (String c a ++ nl ++ b) with (String c (a ++ nl ++ b)).
  cbn [lines]. rewrite IH.
  destruct (is_newline c); [reflexivity|].
  destruct (lines a) as [|l ls] eqn:E; [now apply lines_not_nil in E|].
  reflexivity.
Qed.

Lemma unlines_cons l ls :
  ls <> [] -> unlines (l :: ls) = l ++ nl ++ unlines ls.
Proof. destruct ls; [congruence | reflexivity]. Qed.

Lemma unlines_append (xs ys : list string) :
  xs <> [] -> ys <> [] ->
  unlines (xs ++ ys)%list = unlines xs ++ nl ++ unlines ys.
Proof.
  intros Hx Hy. induction xs as [|x xs IH]; [congruence|].
  destruct xs as [|x' xs].
  - simpl app. now rewrite unlines_cons.
  - change ((x :: x' :: xs) ++ ys)%list with (x :: ((x' :: xs) ++ ys))%list.
    rewrite !unlines_cons by discriminate.
    rewrite IH by discriminate. now rewrite !append_assoc.
Qed.

Lemma common_prefix_empty_r a : common_prefix a "" = "".
Proof. now destruct a. Qed.

Lemma fold_common_prefix_empty (l : list string) :
  fold_left common_prefix l "" = "".
Proof. induction l as [|x l IH]; [reflexivity | exact IH]. Qed.

Lemma fold_common_prefix_In (l : list string) (i : string) :
  In "" l -> fold_left common_prefix l i = "".
Proof.
  revert i. induction l as [|x l IH]; intros i; simpl; [tauto|].
  intros [->|Hin].
  - rewrite common_prefix_empty_r. apply fold_common_prefix_empty.
  - now apply IH.
Qed.

(** A line that has text and starts at the first column leaves no margin
    to remove. *)
Lemma margin_of_flush (ls : list string) (l : string) :
  In l ls -> all_blank l = false -> leading_blank l = "" -> margin_of ls = "".
Proof.
  intros Hin Htext Hflush. unfold margin_of.
  assert (H : In "" (map leading_blank (filter (fun l => negb (all_blank l)) ls))).
  { rewrite <- Hflush. apply in_map. apply filter_In. now rewrite Htext. }
  destruct (map leading_blank (filter (fun l => negb (all_blank l)) ls))
    as [|i rest]; [reflexivity|].
  destruct H as [->|H].
  - apply fold_common_prefix_empty.
  - now apply fold_common_prefix_In.
Qed.

Lemma strip_no_margin (ls : list string) : map (strip_margin "") ls = ls.
Proof.
  induction ls as [|l ls IH]; [reflexivity|]. simpl. rewrite IH.
  unfold strip_margin. now destruct l.
Qed.

(** With the command [go] alone in [visible], the help text is the
    description, with its blank-only lines emptied, followed by the
    commands section. *)
Lemma help_text_go_exact (c : controller_class) (self : Instance.t)
  (func : FuncDict.t) :
  Instance.visible self = [("go", func)] ->
  FuncDict.label func = "go" ->
  FuncDict.aliases func = [] ->
  FuncDict.help func = "Go somewhere" ->
  help_text c self
  = unlines (map normalize_line (lines (Meta.description (meta c))))
    ++ nl ++ nl ++ "commands:" ++ nl ++ nl
    ++ "  go" ++ nl ++ "    Go somewhere" ++ nl ++ nl
    ++ nl ++ nl ++ nl.
Proof.
  intros Hvis Hlabel Haliases Hhelp.
  unfold help_text. rewrite Hvis. cbn [fold_left snd].
  unfold command_text. rewrite Hlabel, Haliases, Hhelp. cbn [List.length Nat.ltb Nat.leb].
  change (negb ("Go somewhere" =? "")) with true. cbv iota.
  unfold dedent. rewrite lines_append, map_app.
  set (descr := map normalize_line (lines (Meta.description (meta c)))).
  match goal with
  | |- context [map normalize_line (lines ?t)] =>
      let v := eval vm_compute in (map normalize_line (lines t)) in
      change (map normalize_line (lines t)) with v
  end.
  rewrite (margin_of_flush _ "commands:"); [| | reflexivity | reflexivity].
  - rewrite strip_no_margin, unlines_append; [reflexivity | | discriminate].
    unfold descr. intros H. apply map_eq_nil in H. now apply lines_not_nil in H.
  - apply in_or_app. right. simpl. tauto.
Qed.

(** C8. With [visible] holding only the command [go], without aliases
    and with help [Go somewhere], the help text has the line [  go],
    then the line [    Go somewhere], then an empty line. *)
Theorem help_text_go (c : controller_class) (self : Instance.t)
  (func : FuncDict.t) :
  Instance.visible self = [("go", func)] ->
  FuncDict.label func = "go" ->
  FuncDict.aliases func = [] ->
  FuncDict.help func = "Go somewhere" ->
  exists before after,
    help_text c self
    = before ++ nl ++ "  go" ++ nl ++ "    Go somewhere" ++ nl ++ "" ++ nl ++ after.
Proof.
  intros Hvis Hlabel Haliases Hhelp.
  rewrite (help_text_go_exact c self func Hvis Hlabel Haliases Hhelp).
  exists (unlines (map normalize_line (lines (Meta.description (meta c))))
          ++ nl ++ nl ++ "commands:" ++ nl),
         (nl ++ nl ++ nl).
  now rewrite !append_assoc.
Qed.

(** ** Stacked and top-level controllers *)

(** A controller without [stacked_on] that passes the gate of the
    registry loop ends up, under its label, in [exposed] and in [visible],
    provided labels are unique in the registry. *)
Lemma toplevel_controller_listed (r : registry) (c : controller_class)
  (self self' : Instance.t) (controller : controller_class) :
  NoDup (map (fun k => Meta.label (meta k)) r) ->
  In controller r ->
  exposes_as_command c controller = true ->
  _collect r c self = Ok self' ->
  dict_get (Instance.exposed self') (Meta.label (meta controller))
  = Some (controller_entry controller)
  /\ dict_get (Instance.visible self') (Meta.label (meta controller))
     = Some (controller_entry controller).
Proof.
  intros Hnodup Hin Hgate E. apply collect_inv in E.
  destruct E as [s1 [s2 [_ [_ E]]]]. unfold handler_list in E.
  destruct (in_split _ _ Hin) as [before [after Hr]]. subst r.
  rewrite for_each_app in E. apply bind_Ok in E. destruct E as [s3 [_ E]].
  apply for_each_cons_inv in E. destruct E as [s4 [E4 E]].
  rewrite map_app in Hnodup. simpl in Hnodup.
  apply NoDup_remove_2 in Hnodup.
  apply (for_each_preserves (collect_controller c)
           (fun s => dict_get (Instance.exposed s) (Meta.label (meta controller))
                     = Some (controller_entry controller)
                     /\ dict_get (Instance.visible s) (Meta.label (meta controller))
                        = Some (controller_entry controller)) after)
    with (s := s4); [| | assumption].
  - intros s k s' Hk [He Hv] Ek. apply collect_controller_cases in Ek.
    destruct Ek as [_ [_ [[-> [-> _]]|[_ [_ [-> ->]]]]]]; [now split|].
    assert (Hne : Meta.label (meta k) <> Meta.label (meta controller)).
    { intros Heq. apply Hnodup. apply in_or_app. right. rewrite <- Heq.
      now apply (in_map (fun k => Meta.label (meta k))). }
    now rewrite !dict_get_set_other.
  - apply collect_controller_cases in E4.
    destruct E4 as [_ [_ [[_ [_ [_ Hno]]]|[_ [_ [-> ->]]]]]]; [congruence|].
    unfold controller_entry. now rewrite !dict_get_set_same.
Qed.

(** C1, on the code.  [extra] is stacked on [base] and has a visible
    command [go] of its own, yet after [_collect] on [base] neither
    [visible] nor [exposed] of [base] has a key [go]. *)
Theorem stacked_commands_not_collected :
  Meta.stacked_on (meta Sample.stacked) = Bound (Some (Meta.label (meta Sample.base)))
  /\ (exists own,
        _collect Sample.with_stacked Sample.stacked (Sample.instance []) = Ok own
        /\ dict_get (Instance.visible own) "go"
           = Some (FuncDict.mk "extra" "go" "Go somewhere" [] false))
  /\ (exists self',
        _collect Sample.with_stacked Sample.base (Sample.instance []) = Ok self'
        /\ dict_get (Instance.visible self') "go" = None
        /\ dict_get (Instance.exposed self') "go" = None).
Proof.
  split; [reflexivity|]. split.
  - eexists. split; [vm_compute; reflexivity | reflexivity].
  - eexists. split; [vm_compute; reflexivity | split; reflexivity].
Qed.

(** C4, on the code.  [admin] declares [stacked_on = None], is not
    [base] and is not hidden, yet after [_collect] on [base] neither
    [exposed] nor [visible] has a key [admin]; [tools], whose meta has no
    [stacked_on] at all, is in both. *)
Theorem stacked_on_none_not_exposed :
  Meta.stacked_on (meta Sample.unstacked) = Bound None
  /\ truthy (Meta.hide (meta Sample.unstacked)) = false
  /\ (exists self',
        _collect Sample.with_unstacked Sample.base (Sample.instance []) = Ok self'
        /\ dict_get (Instance.exposed self') "admin" = None
        /\ dict_get (Instance.visible self') "admin" = None)
  /\ (exists self',
        _collect Sample.with_toplevel Sample.base (Sample.instance []) = Ok self'
        /\ dict_get (Instance.exposed self') "tools"
           = Some (FuncDict.mk "tools" "tools" "Tools" [] false)
        /\ dict_get (Instance.visible self') "tools"
           = Some (FuncDict.mk "tools" "tools" "Tools" [] false)).
Proof.
  split; [reflexivity|]. split; [reflexivity|]. split.
  - eexists. split; [vm_compute; reflexivity | split; reflexivity].
  - eexists. split; [vm_compute; reflexivity | split; reflexivity].
Qed.

(** ** Counterexamples to the statements that had to be amended *)

(** C7 as stated fails: with a controller labelled by the empty string
    registered and argv holding the empty string, [setup] selects the
    command [""], which is a key of [exposed], and [dispatch] calls
    nothing. *)
Lemma dispatch_empty_command_counterexample :
  exists self func,
    (s <- _collect Sample.with_unnamed Sample.base (Sample.instance [""]) ;;
     chop_command s) = Ok self
    /\ dict_get (Instance.exposed self) (Instance.command self) = Some func
    /\ dispatch 1 Sample.with_unnamed Sample.base self
       = ([Debug "no command to dispatch"], Ok self)
    /\ forall on name,
         ~ In (Invoke on name) (fst (dispatch 1 Sample.with_unnamed Sample.base self)).
Proof.
  eexists. eexists. split; [vm_compute; reflexivity|].
  split; [reflexivity|]. split; [reflexivity|].
  intros on name [H|[]]. discriminate.
Qed.

(** C9 as stated fails: [opts] declares the option [--foo]; the first
    [_collect] registers it, and the second, on the instance the first
    returned, asks the parser to register it again, which raises
    [ArgumentError] after the maps have been emptied. *)
Lemma collect_twice_counterexample :
  exists once,
    _collect [Sample.opts] Sample.opts (Sample.instance []) = Ok once
    /\ _collect [Sample.opts] Sample.opts once = Raise (ArgumentError "--foo").
Proof. eexists. split; reflexivity. Qed.

(** C10 as stated fails: with a controller labelled [default]
    registered, [_collect] on a controller that keeps the inherited
    [default] maps [default], in [exposed] and in [visible], to an entry
    that is not marked hidden. *)
Lemma default_shadowed_counterexample :
  class_lookup Sample.base "default" = None
  /\ exists self' entry,
       _collect Sample.with_named_default Sample.base (Sample.instance []) = Ok self'
       /\ dict_get (Instance.exposed self') "default" = Some entry
       /\ FuncDict.hide entry = false
       /\ dict_get (Instance.visible self') "default" = Some entry
       /\ dict_get (Instance.hidden self') "default" <> Some entry.
Proof.
  split; [reflexivity|].
  eexists. eexists. split; [vm_compute; reflexivity|].
  split; [reflexivity|]. split; [reflexivity|]. split; [reflexivity|].
  discriminate.
Qed.

(** ** The statements at the sample application *)

(** [Sample.collected] is what [_collect] makes of a new instance of the
    root controller. *)
Lemma collected_is_collect (argv : list string) :
  _collect Sample.alone Sample.base (Sample.instance argv)
  = Ok (Sample.collected argv).
Proof. reflexivity. Qed.

Lemma alias_resolution_witness :
  chop_command (with_argv (Sample.collected []) (Sample.app []) ["l"; "--foo"])
    = Ok (Instance.with_command
            (with_argv (Sample.collected []) (Sample.app []) ["--foo"]) "list")
  /\ chop_command (with_argv (Sample.collected []) (Sample.app []) ["list"])
    = Ok (Instance.with_command
            (with_argv (Sample.collected []) (Sample.app []) []) "list")
  /\ chop_command (with_argv (Sample.collected []) (Sample.app []) ["lx"])
    = Ok (with_argv (Sample.collected []) (Sample.app []) ["lx"])
  /\ Instance.command (with_argv (Sample.collected []) (Sample.app []) ["lx"])
    = "default".
Proof.
  apply (alias_resolution (Sample.collected []) (Sample.app []) Sample.list_entry).
  - simpl. repeat constructor; simpl; intuition discriminate.
  - reflexivity.
  - reflexivity.
  - reflexivity.
  - intros other Hin Hne. simpl in Hin.
    destruct Hin as [<-|[<-|[]]].
    + unfold answers_to. simpl. intuition discriminate.
    + exfalso. now apply Hne.
  - reflexivity.
Defined.

Lemma option_first_keeps_default_witness :
  exists self',
    chop_command (Sample.collected ["--foo"; "list"]) = Ok self'
    /\ Instance.app self' = Some (Sample.app ["--foo"; "list"])
    /\ Instance.command self' = "default".
Proof.
  apply (option_first_keeps_default (Sample.collected ["--foo"; "list"])
           (Sample.app ["--foo"; "list"])).
  - reflexivity.
  - reflexivity.
  - right. exists "--foo", ["list"]. split; reflexivity.
Defined.

Lemma dispatch_unknown_command_witness :
  exists msg,
    dispatch 1 Sample.alone Sample.base
      (Instance.with_command (Sample.collected []) "remove")
    = ([Debug msg], Ok (Instance.with_command (Sample.collected []) "remove")).
Proof.
  apply (dispatch_unknown_command 0 Sample.alone Sample.base
           (Instance.with_command (Sample.collected []) "remove")).
  reflexivity.
Defined.

Lemma default_not_implemented_witness :
  invoke (dispatch 0 Sample.alone Sample.base) Sample.base (Sample.collected [])
         OnSelf "default"
  = ([Invoke OnSelf "default"], Raise NotImplementedError).
Proof.
  apply (default_not_implemented (dispatch 0 Sample.alone Sample.base)
           Sample.base (Sample.collected []) OnSelf).
  reflexivity.
Defined.

Lemma dispatch_routes_witness :
  dispatch 1 Sample.alone Sample.base
    (Instance.with_command (Sample.collected []) "list")
  = ([Debug "dispatching command: base.list"; Invoke OnSelf "list"],
     Ok (Instance.with_command (Sample.collected []) "list"))
  /\ dispatch 1 Sample.with_toplevel Sample.base
       (Instance.with_exposed
          (Instance.with_command (Sample.collected []) "tools")
          [("tools", FuncDict.mk "tools" "tools" "Tools" [] false)])
     = ([Debug "dispatching command: tools.tools";
         Invoke (OnFresh "tools") "tools"],
        Ok (Instance.with_exposed
              (Instance.with_command (Sample.collected []) "tools")
              [("tools", FuncDict.mk "tools" "tools" "Tools" [] false)])).
Proof.
  split.
  - apply (proj1 (dispatch_routes 0 Sample.alone Sample.base
                    (Instance.with_command (Sample.collected []) "list")
                    Sample.list_entry
                    ltac:(discriminate) eq_refl)
                 eq_refl
                 (expose false "List things" ["ls"; "l"] (def "list" Sample.noop))
                 eq_refl).
  - apply (proj2 (dispatch_routes 0 Sample.with_toplevel Sample.base
                    (Instance.with_exposed
                       (Instance.with_command (Sample.collected []) "tools")
                       [("tools", FuncDict.mk "tools" "tools" "Tools" [] false)])
                    (FuncDict.mk "tools" "tools" "Tools" [] false)
                    ltac:(discriminate) eq_refl)
                 ltac:(discriminate)
                 Sample.toplevel
                 (expose false "Run the tool" [] (def "tools" Sample.noop))
                 eq_refl eq_refl).
Defined.

Lemma help_text_go_witness :
  exists before after,
    help_text Sample.base
      (Instance.with_visible __init__
         [("go", FuncDict.mk "base" "go" "Go somewhere" [] false)])
    = before ++ nl ++ "  go" ++ nl ++ "    Go somewhere" ++ nl ++ "" ++ nl ++ after.
Proof.
  apply (help_text_go Sample.base
           (Instance.with_visible __init__
              [("go", FuncDict.mk "base" "go" "Go somewhere" [] false)])
           (FuncDict.mk "base" "go" "Go somewhere" [] false));
    reflexivity.
Defined.

Lemma collect_idempotent_witness :
  exists once twice,
    _collect Sample.with_toplevel Sample.base (Sample.instance []) = Ok once
    /\ _collect Sample.with_toplevel Sample.base once = Ok twice
    /\ Instance.exposed twice = Instance.exposed once
    /\ Instance.visible twice = Instance.visible once
    /\ Instance.hidden twice = Instance.hidden once.
Proof.
  apply (proj2 (collect_idempotent Sample.with_toplevel Sample.base
                  (Sample.instance []) (Sample.app []) eq_refl));
    reflexivity.
Defined.

Lemma default_stays_hidden_witness :
  dict_get (Instance.exposed (Sample.collected_with_tools [])) "default"
  = Some (default_entry Sample.base)
  /\ FuncDict.hide (default_entry Sample.base) = true
  /\ dict_get (Instance.hidden (Sample.collected_with_tools [])) "default"
     = Some (default_entry Sample.base)
  /\ dict_get (Instance.visible (Sample.collected_with_tools [])) "default" = None
  /\ dict_mem (Instance.exposed (Sample.collected_with_tools [])) "default" = true.
Proof.
  apply (default_stays_hidden Sample.with_toplevel Sample.base
           (Sample.instance []) (Sample.collected_with_tools [])).
  - reflexivity.
  - intros controller Hin _. simpl in Hin.
    destruct Hin as [<-|[<-|[]]]; discriminate.
  - reflexivity.
Defined.

(** * Further properties of the controller *)

(** ** What the maps hold after [_collect] *)

Lemma dict_get_set {V : Type} (d : dict V) (k k' : string) (v : V) :
  dict_get (dict_set d k v) k' = if String.eqb k k' then Some v else dict_get d k'.
Proof.
  destruct (String.eqb k k') eqn:E.
  - apply String.eqb_eq in E. subst k'. apply dict_get_set_same.
  - apply String.eqb_neq in E. now apply dict_get_set_other.
Qed.

Lemma getattr_own c self name f :
  getattr_ c self name = Ok (VFunction f) -> label f = name /\ own_function c f.
Proof.
  intros H. assert (Hinst : in_list name instance_names = false).
  { unfold getattr_ in H. destruct (in_list name instance_names);
      [discriminate | reflexivity]. }
  apply getattr_function in H. destruct H as [H|[-> [-> H]]].
  - assert (Hname := class_lookup_name _ _ _ H). unfold own_function, label.
    rewrite Hname. auto.
  - unfold own_function. simpl. auto.
Qed.

Lemma own_function_getattr c self f :
  own_function c f -> getattr_ c self (label f) = Ok (VFunction f).
Proof.
  intros [Hinst [H|[-> H]]]; unfold getattr_.
  - now rewrite Hinst, H.
  - simpl. now rewrite H.
Qed.

(** One pass of the member loop, with what it stores. *)
Lemma collect_member_step c s member s' :
  collect_member c s member = Ok s' ->
  s' = s
  \/ exists f m,
       own_function c f /\ exposed_marks f = Some m
       /\ Instance.app s' = Instance.app s
       /\ Instance.command s' = Instance.command s
       /\ Instance.arguments s' = Instance.arguments s
       /\ Instance.exposed s'
          = dict_set (Instance.exposed s) (label f) (function_entry c f m)
       /\ ((m_hide m = true
            /\ Instance.hidden s'
               = dict_set (Instance.hidden s) (label f) (function_entry c f m)
            /\ Instance.visible s' = Instance.visible s)
           \/ (m_hide m = false
               /\ Instance.hidden s' = Instance.hidden s
               /\ ((truthy (Meta.hide (meta c)) = true
                    /\ Instance.visible s' = Instance.visible s)
                   \/ (truthy (Meta.hide (meta c)) = false
                       /\ Instance.visible s'
                          = dict_set (Instance.visible s) (label f)
                              (function_entry c f m))))).
Proof.
  unfold collect_member.
  destruct (in_list member ignored || startswith member "_");
    [intros [= <-]; now left|].
  destruct (getattr_ c s member) as [v|e] eqn:Eattr; simpl; [|discriminate].
  destruct v as [f| | | |]; try (intros [= <-]; now left).
  destruct (exposed_marks f) as [m|] eqn:Em; [|intros [= <-]; now left].
  apply getattr_own in Eattr. destruct Eattr as [_ Hown].
  destruct (m_hide m) eqn:Eh.
  - intros [= <-]. right. exists f, m. unfold function_entry. simpl.
    rewrite Eh. intuition.
  - destruct (truthy (Meta.hide (meta c))) eqn:Et; simpl; intros [= <-];
      right; exists f, m; unfold function_entry; simpl; rewrite Eh; intuition.
Qed.

Lemma own_entry_intro c f m :
  own_function c f -> exposed_marks f = Some m ->
  own_entry c (label f) (function_entry c f m).
Proof. intros Hf Hm. exists f, m. auto. Qed.

(** Settles [key_ok] for one key once the lookups have been rewritten;
    the three arguments are the parts of [key_ok] known before the step. *)
Ltac key_ok_tac Hoe Hov Hoh :=
  unfold key_ok; split; [|split]; intros ? Hget;
  try (injection Hget as <-);
  try (pose proof (Hoe _ Hget));
  try (destruct (Hov _ Hget) as (? & ? & ?));
  try (destruct (Hoh _ Hget) as (? & ? & ?));
  repeat match goal with |- _ /\ _ => split end;
  simpl; try discriminate; auto.

Lemma collect_member_maps_ok r c s member s' :
  collect_member c s member = Ok s' -> maps_ok r c s -> maps_ok r c s'.
Proof.
  intros H Hok. apply collect_member_step in H.
  destruct H as [->|[f [m [Hf [Hm [_ [_ [_ [He Hsplit]]]]]]]]]; [assumption|].
  assert (Hown := own_entry_intro c f m Hf Hm).
  intros k. specialize (Hok k). destruct Hok as [Hoe [Hov Hoh]].
  rewrite He, dict_get_set.
  destruct Hsplit as [[Hh [-> ->]]|[Hh [-> [[Ht ->]|[Ht ->]]]]];
    rewrite ?dict_get_set;
    destruct (String.eqb (label f) k) eqn:E;
    try (apply String.eqb_eq in E; subst k);
    key_ok_tac Hoe Hov Hoh.
Qed.

Lemma collect_controller_maps_ok r c s controller s' :
  In controller r ->
  collect_controller c s controller = Ok s' -> maps_ok r c s -> maps_ok r c s'.
Proof.
  intros Hin H Hok. apply collect_controller_cases in H.
  destruct H as [_ [_ [[He [Hv [Hh _]]]|[Hgate [Hh [He Hv]]]]]].
  - intros k. rewrite He, Hv, Hh. apply Hok.
  - assert (Hlisted : listed_entry r c (Meta.label (meta controller))
                        (controller_entry controller)).
    { exists controller. auto. }
    intros k. specialize (Hok k). destruct Hok as [Hoe [Hov Hoh]].
    rewrite He, Hv, Hh, !dict_get_set.
    fold (controller_entry controller).
    destruct (String.eqb (Meta.label (meta controller)) k) eqn:E;
      try (apply String.eqb_eq in E; subst k);
      key_ok_tac Hoe Hov Hoh.
Qed.

Lemma collect_maps_ok r c self self' :
  _collect r c self = Ok self' -> maps_ok r c self'.
Proof.
  intros H. apply collect_inv in H. destruct H as [s1 [s2 [E1 [E2 E3]]]].
  apply add_arguments_inv in E1. destruct E1 as [oa [-> _]].
  assert (H2 : maps_ok r c s2).
  { apply (for_each_preserves (collect_member c) (maps_ok r c) (dir_ c))
      with (s := Instance.with_app (emptied self) oa); [| | assumption].
    - intros s member s' _ Hs E. exact (collect_member_maps_ok r c _ _ _ E Hs).
    - intros k. unfold key_ok. simpl. repeat split; discriminate. }
  apply (for_each_preserves (collect_controller c) (maps_ok r c) (handler_list r))
    with (s := s2); [| assumption | assumption].
  intros s controller s' Hin Hs E.
  exact (collect_controller_maps_ok r c _ _ _ Hin E Hs).
Qed.

Lemma own_entry_facts c k e :
  own_entry c k e ->
  FuncDict.label e = k /\ FuncDict.controller e = Meta.label (meta c).
Proof. intros [f [m [_ [_ [-> ->]]]]]. now split. Qed.

Lemma exposes_as_command_other c controller :
  exposes_as_command c controller = true ->
  Meta.label (meta controller) <> Meta.label (meta c)
  /\ Meta.stacked_on (meta controller) = Missing
  /\ Meta.label (meta controller) <> "base"
  /\ truthy (Meta.hide (meta controller)) = false.
Proof.
  unfold exposes_as_command. intros H.
  apply andb_prop in H. destruct H as [H Hhide].
  apply andb_prop in H. destruct H as [H Hbase].
  apply andb_prop in H. destruct H as [Hother Hso].
  apply negb_true_iff in Hother, Hbase, Hhide.
  apply String.eqb_neq in Hother, Hbase.
  destruct (Meta.stacked_on (meta controller)); [|discriminate]. auto.
Qed.

Lemma listed_entry_facts r c k e :
  listed_entry r c k e ->
  FuncDict.label e = k /\ FuncDict.controller e = k
  /\ FuncDict.controller e <> Meta.label (meta c)
  /\ FuncDict.aliases e = [] /\ FuncDict.hide e = false.
Proof.
  intros [controller [_ [Hgate [-> ->]]]].
  apply exposes_as_command_other in Hgate. simpl. intuition.
Qed.

(** X1.  After [_collect], each of the three maps stores an entry under the
    entry's own label. *)
Theorem collected_keys_are_labels (r : registry) (c : controller_class)
  (self self' : Instance.t) (k : string) (e : FuncDict.t) :
  _collect r c self = Ok self' ->
  dict_get (Instance.exposed self') k = Some e
  \/ dict_get (Instance.visible self') k = Some e
  \/ dict_get (Instance.hidden self') k = Some e ->
  FuncDict.label e = k.
Proof.
  intros H Hget. apply (collect_maps_ok r) in H. specialize (H k).
  destruct H as [Hoe [Hov Hoh]].
  destruct Hget as [Hget|[Hget|Hget]].
  - destruct (Hoe e Hget) as [Ho|Hl].
    + now apply own_entry_facts in Ho.
    + now apply listed_entry_facts in Hl.
  - destruct (Hov e Hget) as [_ [_ [[Ho _]|Hl]]].
    + now apply own_entry_facts in Ho.
    + now apply listed_entry_facts in Hl.
  - destruct (Hoh e Hget) as [_ [_ Ho]]. now apply own_entry_facts in Ho.
Qed.

(** X2.  After [_collect], [hidden] holds only entries marked hidden and
    [visible] only entries not marked hidden, and every key of either is
    a key of [exposed]. *)
Theorem collected_maps_split (r : registry) (c : controller_class)
  (self self' : Instance.t) (k : string) (e : FuncDict.t) :
  _collect r c self = Ok self' ->
  (dict_get (Instance.hidden self') k = Some e ->
   FuncDict.hide e = true /\ dict_mem (Instance.exposed self') k = true)
  /\ (dict_get (Instance.visible self') k = Some e ->
      FuncDict.hide e = false /\ dict_mem (Instance.exposed self') k = true).
Proof.
  intros H. apply (collect_maps_ok r) in H. specialize (H k).
  destruct H as [_ [Hov Hoh]]. unfold dict_mem. split; intros Hget.
  - destruct (Hoh e Hget) as [Hex [Hh _]].
    destruct (dict_get (Instance.exposed self') k); [now split | congruence].
  - destruct (Hov e Hget) as [Hex [Hh _]].
    destruct (dict_get (Instance.exposed self') k); [now split | congruence].
Qed.

(** X3.  A controller whose meta says [hide] shows none of its own commands:
    after [_collect] every entry of [visible] belongs to another
    controller. *)
Theorem hidden_controller_shows_no_own_command (r : registry)
  (c : controller_class) (self self' : Instance.t) (k : string)
  (e : FuncDict.t) :
  truthy (Meta.hide (meta c)) = true ->
  _collect r c self = Ok self' ->
  dict_get (Instance.visible self') k = Some e ->
  FuncDict.controller e <> Meta.label (meta c).
Proof.
  intros Hhide H Hget. apply (collect_maps_ok r) in H. specialize (H k).
  destruct H as [_ [Hov _]].
  destruct (Hov e Hget) as [_ [_ [[_ Ht]|Hl]]]; [congruence|].
  now apply listed_entry_facts in Hl.
Qed.




(** Without an application, reading a name of [dir] works for every name
    but the [usage_text] property. *)
Lemma collect_member_no_app c s name :
  Instance.app s = None ->
  class_lookup c "usage_text" = None ->
  In name (dir_ c) ->
  (name = "usage_text"
   /\ collect_member c s name = Raise (AttributeError "args"))
  \/ (name <> "usage_text"
      /\ exists s', collect_member c s name = Ok s' /\ Instance.app s' = None).
Proof.
  intros Happ Hlook Hin. destruct (string_dec name "usage_text") as [->|Hne].
  - left. split; [reflexivity|].
    unfold collect_member, getattr_, usage_text.
    cbn [in_list existsb ignored instance_names startswith String.prefix
         String.eqb Ascii.eqb Bool.eqb orb].
    now rewrite Hlook, Happ.
  - right. split; [assumption|].
    destruct (getattr_dir c s name Hin) as [[v Hattr]|[Heq _]];
      [|contradiction].
    destruct (collect_member_reads c s name v Hattr) as [s' Hok].
    exists s'. split; [assumption|].
    apply collect_member_app in Hok. destruct Hok as [-> _]. assumption.
Qed.

Lemma members_no_app c (names : list string) :
  class_lookup c "usage_text" = None ->
  (forall name, In name names -> In name (dir_ c)) ->
  In "usage_text" names ->
  forall s, Instance.app s = None ->
    for_each (collect_member c) names s = Raise (AttributeError "args").
Proof.
  intros Hlook. induction names as [|name names IH]; intros Hdir Hin s Happ;
    [contradiction|].
  simpl.
  destruct (collect_member_no_app c s name Happ Hlook (Hdir name (or_introl eq_refl)))
    as [[_ ->]|[Hne [s' [-> Happ']]]]; [reflexivity|].
  simpl. apply IH; [| |assumption].
  - intros n Hn. apply Hdir. now right.
  - destruct Hin as [Heq|Hin]; [now contradiction Hne | assumption].
Qed.

(** X5.  [_collect] needs the application: on an instance whose [app] is
    still [None], as [__init__] leaves it, it raises [AttributeError],
    unless the class replaces the [usage_text] property. *)
Theorem collect_needs_application (r : registry) (c : controller_class)
  (self : Instance.t) :
  Instance.app self = None ->
  class_lookup c "usage_text" = None ->
  _collect r c self = Raise (AttributeError "args").
Proof.
  intros Happ Hlook. rewrite collect_unfold. unfold add_arguments.
  destruct (Meta.arguments (meta c)) as [|spec specs] eqn:Eargs.
  - cbn [for_each bind]. rewrite members_no_app; try reflexivity; try assumption.
    + auto.
    + apply In_dir. simpl. tauto.
  - cbn [for_each]. unfold add_one at 1. cbn [emptied Instance.app].
    rewrite Happ. reflexivity.
Qed.






(** X6.  When [_collect] returns, the parser holds, after what it had, the
    arguments of the controller and then those of the controllers stacked
    on it in registry order; argv and the selected command are as they
    were and the [arguments] attribute of the instance is empty. *)
Theorem collect_merges_arguments (r : registry) (c : controller_class)
  (self self' : Instance.t) (a : App.t) :
  Instance.app self = Some a ->
  _collect r c self = Ok self' ->
  exists a',
    Instance.app self' = Some a'
    /\ Parser.added (App.args a')
       = (Parser.added (App.args a) ++ Meta.arguments (meta c)
          ++ stacked_arguments r c)%list
    /\ App.argv a' = App.argv a
    /\ Instance.command self' = Instance.command self
    /\ Instance.arguments self' = [].
Proof.
  intros Happ E.
  destruct (collect_app r c self a self' Happ E) as [Happ' [Hargs [Hcmd _]]].
  eexists. split; [exact Happ'|]. now repeat split.
Qed.

(** X7.  With an application set, [_collect] returns exactly when the parser
    takes, one after the other, the arguments of the controller and of the
    controllers stacked on it; an option string met twice makes it raise. *)
Theorem collect_returns_iff_accepted (r : registry) (c : controller_class)
  (self : Instance.t) (a : App.t) :
  Instance.app self = Some a ->
  (exists self', _collect r c self = Ok self')
  <-> accepts (App.args a) (Meta.arguments (meta c) ++ stacked_arguments r c)%list
      = true.
Proof.
  intros Happ. split.
  - intros [self' E]. now destruct (collect_app r c self a self' Happ E)
      as [_ [_ [_ Hacc]]].
  - apply collect_total. exact Happ.
Qed.

(** ** Controllers that declare [stacked_on] *)

Lemma controllers_without_stacked_on c (r : registry) :
  forall s t s' t',
    same_view s t ->
    for_each (collect_controller c) r s = Ok s' ->
    for_each (collect_controller c) (without_stacked_on r) t = Ok t' ->
    same_view s' t'.
Proof.
  induction r as [|k r IH]; intros s t s' t' Hst Hs Ht.
  - simpl in Hs, Ht. congruence.
  - apply for_each_cons_inv in Hs. destruct Hs as [s1 [Hs1 Hs]].
    unfold without_stacked_on in Ht. simpl in Ht.
    destruct (Meta.stacked_on (meta k)) as [|so] eqn:Eso.
    + apply for_each_cons_inv in Ht. destruct Ht as [t1 [Ht1 Ht]].
      apply (IH s1 t1 s' t'); try assumption.
      assert (Hsim := collect_controller_sim c s t k Hst).
      now rewrite Hs1, Ht1 in Hsim.
    + apply (IH s1 t s' t'); try assumption.
      destruct (collect_controller_bound c s k so s1 Eso Hs1)
        as [He [Hv [Hh [_ Ha]]]].
      destruct Hst as [He' [Hv' [Hh' Ha']]].
      unfold same_view. rewrite He, Hv, Hh. intuition.
Qed.

(** X8.  A controller whose meta has a [stacked_on] attribute, whatever its
    value, contributes no command: when [_collect] returns, it has built
    the three maps it builds with such controllers removed from the
    registry. *)
Theorem declared_stacked_on_ignored (r : registry) (c : controller_class)
  (self full pruned : Instance.t) :
  _collect r c self = Ok full ->
  _collect (without_stacked_on r) c self = Ok pruned ->
  Instance.exposed full = Instance.exposed pruned
  /\ Instance.visible full = Instance.visible pruned
  /\ Instance.hidden full = Instance.hidden pruned.
Proof.
  intros E1 E2. apply collect_inv in E1, E2.
  destruct E1 as [s1 [s2 [A1 [B1 C1]]]]. destruct E2 as [t1 [t2 [A2 [B2 C2]]]].
  rewrite A1 in A2. injection A2 as <-.
  rewrite B1 in B2. injection B2 as <-.
  assert (H : same_view full pruned).
  { apply (controllers_without_stacked_on c r s2 s2 full pruned);
      try assumption.
    unfold same_view. tauto. }
  destruct H as [He [Hv [Hh _]]]. now repeat split.
Qed.

(** ** From [_collect] to command resolution and [dispatch] *)

Lemma In_keys_set {V : Type} (d : dict V) (k x : string) (v : V) :
  In x (dict_keys (dict_set d k v)) <-> x = k \/ In x (dict_keys d).
Proof.
  induction d as [|[k0 v0] d IH]; simpl.
  - intuition.
  - destruct (String.eqb k0 k) eqn:E; simpl.
    + apply String.eqb_eq in E. subst k0. intuition.
    + unfold dict_keys in IH. rewrite IH. intuition.
Qed.

Lemma NoDup_keys_set {V : Type} (d : dict V) (k : string) (v : V) :
  NoDup (dict_keys d) -> NoDup (dict_keys (dict_set d k v)).
Proof.
  induction d as [|[k0 v0] d IH]; simpl; intros Hnd.
  - constructor; [tauto | constructor].
  - inversion Hnd as [|? ? Hnotin Hnd']; subst.
    destruct (String.eqb k0 k) eqn:E; simpl.
    + apply String.eqb_eq in E. subst k0. now constructor.
    + constructor; [|now apply IH].
      intros Hin. apply (In_keys_set d k k0 v) in Hin.
      destruct Hin as [->|Hin]; [|contradiction].
      now rewrite String.eqb_refl in E.
Qed.

(** [exposed] is a dictionary: no key occurs twice. *)
Lemma collect_exposed_keys r c self self' :
  _collect r c self = Ok self' -> NoDup (dict_keys (Instance.exposed self')).
Proof.
  intros H. apply collect_inv in H. destruct H as [s1 [s2 [E1 [E2 E3]]]].
  apply add_arguments_inv in E1. destruct E1 as [oa [-> _]].
  apply (for_each_preserves (collect_controller c)
           (fun s => NoDup (dict_keys (Instance.exposed s))) (handler_list r))
    with (s := s2); [| | assumption].
  - intros s k s' _ Hs H. apply collect_controller_cases in H.
    destruct H as [_ [_ [[-> _]|[_ [_ [-> _]]]]]];
      [assumption | now apply NoDup_keys_set].
  - apply (for_each_preserves (collect_member c)
             (fun s => NoDup (dict_keys (Instance.exposed s))) (dir_ c)) in E2;
      [assumption | | constructor].
    intros s member s' _ Hs H. apply collect_member_step in H.
    destruct H as [->|[f [m [_ [_ [_ [_ [_ [-> _]]]]]]]]];
      [assumption | now apply NoDup_keys_set].
Qed.

Lemma maps_ok_exposed r c s k e :
  maps_ok r c s -> dict_get (Instance.exposed s) k = Some e ->
  FuncDict.label e = k
  /\ ((FuncDict.controller e = Meta.label (meta c) /\ own_entry c k e)
      \/ (FuncDict.controller e <> Meta.label (meta c) /\ listed_entry r c k e)).
Proof.
  intros Hok Hget. destruct (Hok k) as [Hoe _].
  destruct (Hoe e Hget) as [Ho|Hl].
  - destruct (own_entry_facts _ _ _ Ho). split; [assumption|]. now left.
  - destruct (listed_entry_facts _ _ _ _ Hl) as [? [_ [? _]]].
    split; [assumption|]. now right.
Qed.

(** X9.  After [_collect], whenever the chopping step of [setup] consumes a
    token, the command it selects is a key of [exposed]: the token itself
    or the label of a command that has the token among its aliases. *)
Theorem chop_selects_exposed (r : registry) (c : controller_class)
  (self collected chopped : Instance.t) :
  _collect r c self = Ok collected ->
  chop_command collected = Ok chopped ->
  chopped = collected
  \/ exists a token rest e,
       Instance.app collected = Some a
       /\ App.argv a = token :: rest
       /\ Instance.app chopped = Some (App.with_argv a rest)
       /\ dict_get (Instance.exposed chopped) (Instance.command chopped) = Some e
       /\ (Instance.command chopped = token \/ In token (FuncDict.aliases e)).
Proof.
  intros Hcol. assert (Hok := collect_maps_ok r c _ _ Hcol).
  assert (Hnd := collect_exposed_keys r c _ _ Hcol).
  unfold chop_command.
  destruct (Instance.app collected) as [a|] eqn:Happ; [|discriminate].
  destruct (App.argv a) as [|token rest] eqn:Hargv; [intros [= <-]; now left|].
  destruct (negb (startswith token "-")); [|intros [= <-]; now left].
  unfold dict_mem.
  destruct (dict_get (Instance.exposed collected) token) as [e|] eqn:Hkey.
  - intros [= <-]. right. exists a, token, rest, e. simpl.
    repeat split; auto.
  - destruct (alias_scan token (Instance.exposed collected)) as [func|] eqn:Hscan;
      [|intros [= <-]; now left].
    intros [= <-]. right. exists a, token, rest, func. simpl.
    apply alias_scan_Some in Hscan. destruct Hscan as [k [Hin Halias]].
    apply (In_dict_get _ _ _ Hnd) in Hin.
    destruct (maps_ok_exposed r c _ _ _ Hok Hin) as [-> _].
    repeat split; auto.
Qed.

(** X10.  After [_collect], dispatching a command of the collecting controller
    always reaches a function: the one the class binds to that name, or
    the inherited [default], run on the current instance. *)
Theorem dispatch_runs_own_function (depth : nat) (r : registry)
  (c : controller_class) (self collected s : Instance.t) (e : FuncDict.t) :
  _collect r c self = Ok collected ->
  Instance.exposed s = Instance.exposed collected ->
  Instance.command s <> "" ->
  dict_get (Instance.exposed s) (Instance.command s) = Some e ->
  FuncDict.controller e = Meta.label (meta c) ->
  exists f,
    (class_lookup c (Instance.command s) = Some f
     \/ (f = default /\ Instance.command s = "default"
         /\ class_lookup c "default" = None))
    /\ dispatch (S depth) r c s
       = ([Debug ("dispatching command: " ++ Meta.label (meta c) ++ "."
                  ++ Instance.command s);
           Invoke OnSelf (Instance.command s)],
          body f s).
Proof.
  intros Hcol Hexp Hcmd Hget Hctl.
  assert (Hok := collect_maps_ok r c _ _ Hcol).
  rewrite Hexp in Hget.
  destruct (maps_ok_exposed r c _ _ _ Hok Hget) as [Hlabel [[_ Ho]|[Hne _]]];
    [|contradiction].
  destruct Ho as [f [m [Hf [Hm [Hk He]]]]].
  exists f. split.
  - destruct Hf as [_ [H|[-> H]]].
    + left. now rewrite Hk.
    + right. now repeat split.
  - simpl. apply String.eqb_neq in Hcmd. rewrite Hcmd, Hexp, Hget.
    rewrite Hctl, String.eqb_refl, Hlabel.
    unfold invoke. rewrite Hk, (own_function_getattr c s f Hf). reflexivity.
Qed.

Lemma handler_get_unique (r : registry) (controller : controller_class) :
  NoDup (map (fun k => Meta.label (meta k)) r) ->
  In controller r ->
  handler_get r (Meta.label (meta controller)) = Ok controller.
Proof.
  unfold handler_get. induction r as [|k r IH]; simpl; [tauto|].
  intros Hnd Hin. inversion Hnd as [|? ? Hnotin Hnd']; subst.
  destruct Hin as [->|Hin].
  - now rewrite String.eqb_refl.
  - destruct (String.eqb (Meta.label (meta k)) (Meta.label (meta controller)))
      eqn:E; [|now apply IH].
    apply String.eqb_eq in E. exfalso. apply Hnotin. rewrite E.
    now apply (in_map (fun k => Meta.label (meta k))).
Qed.

(** X11.  A controller the registry loop lists is served on a new instance of
    its class: dispatching its label runs the function of that name the
    class defines on what [__init__] made, an instance that was never set
    up, and leaves the current instance as it is. *)
Theorem dispatch_listed_controller (depth : nat) (r : registry)
  (c : controller_class) (self collected s : Instance.t)
  (controller : controller_class) (f : function) :
  NoDup (map (fun k => Meta.label (meta k)) r) ->
  In controller r ->
  exposes_as_command c controller = true ->
  _collect r c self = Ok collected ->
  Instance.exposed s = Instance.exposed collected ->
  Instance.command s = Meta.label (meta controller) ->
  Instance.command s <> "" ->
  getattr_ controller __init__ (Meta.label (meta controller)) = Ok (VFunction f) ->
  dispatch (S depth) r c s
  = ([Debug ("dispatching command: " ++ Meta.label (meta controller) ++ "."
             ++ Meta.label (meta controller));
      Invoke (OnFresh (Meta.label (meta controller))) (Meta.label (meta controller))],
     _ <- body f __init__ ;; Ok s).
Proof.
  intros Hnd Hin Hgate Hcol Hexp Hcmd Hne Hattr.
  destruct (toplevel_controller_listed r c self collected controller
              Hnd Hin Hgate Hcol) as [Hget _].
  cbn [dispatch]. apply String.eqb_neq in Hne. rewrite Hne, Hexp, Hcmd, Hget.
  cbn [controller_entry FuncDict.controller FuncDict.label].
  destruct (exposes_as_command_other _ _ Hgate) as [Hother _].
  apply String.eqb_neq in Hother. rewrite Hother.
  rewrite (handler_get_unique r controller Hnd Hin).
  unfold invoke. rewrite Hattr. reflexivity.
Qed.

(** X12.  A controller without a [stacked_on] attribute that is neither [base]
    nor hidden is listed by every other controller: when [_collect]
    returns, its label is a key of [exposed] and of [visible], with help
    text its description, no aliases and the flag [hide] off, whatever
    commands the collecting controller has under that name. *)
Theorem listed_controller_entry (r : registry) (c : controller_class)
  (self self' : Instance.t) (controller : controller_class) :
  NoDup (map (fun k => Meta.label (meta k)) r) ->
  In controller r ->
  Meta.label (meta controller) <> Meta.label (meta c) ->
  Meta.stacked_on (meta controller) = Missing ->
  Meta.label (meta controller) <> "base" ->
  truthy (Meta.hide (meta controller)) = false ->
  _collect r c self = Ok self' ->
  dict_get (Instance.exposed self') (Meta.label (meta controller))
  = Some (controller_entry controller)
  /\ dict_get (Instance.visible self') (Meta.label (meta controller))
     = Some (controller_entry controller).
Proof.
  intros Hnd Hin Hother Hso Hbase Hhide E.
  apply (toplevel_controller_listed r c self self' controller Hnd Hin); [|exact E].
  unfold exposes_as_command. rewrite Hso, Hhide.
  apply String.eqb_neq in Hother, Hbase. now rewrite Hother, Hbase.
Qed.



(** X13.  With no command on the command line (argv empty or starting with an
    option), a controller that keeps the inherited [default] and was set
    up by [_collect] and the chopping step dispatches to [default], which
    raises [NotImplementedError]. *)
Theorem unresolved_command_runs_default (depth : nat) (r : registry)
  (c : controller_class) (self collected : Instance.t) (a : App.t) :
  class_lookup c "default" = None ->
  (forall controller, In controller r ->
     exposes_as_command c controller = true ->
     Meta.label (meta controller) <> "default") ->
  Instance.app self = Some a ->
  Instance.command self = "default" ->
  App.argv a = [] \/
    (exists token rest, App.argv a = token :: rest /\ startswith token "-" = true) ->
  _collect r c self = Ok collected ->
  chop_command collected = Ok collected
  /\ dispatch (S depth) r c collected
     = ([Debug ("dispatching command: " ++ Meta.label (meta c) ++ ".default");
         Invoke OnSelf "default"],
        Raise NotImplementedError).
Proof.
  intros inherited Hreg Happ Hcmd Hargv E.
  destruct (collect_app r c self a collected Happ E) as [Happ' [_ [Hcmd' _]]].
  destruct (collect_hidden_default r c self collected inherited Hreg E)
    as [_ [He _]].
  split.
  - unfold chop_command. rewrite Happ'.
    cbn [with_added App.with_args App.argv].
    destruct Hargv as [-> | [token [rest [-> Hdash]]]]; [reflexivity|].
    now rewrite Hdash.
  - cbn [dispatch]. rewrite Hcmd', Hcmd.
    cbn [String.eqb Ascii.eqb Bool.eqb]. rewrite He.
    cbn [default_entry FuncDict.controller FuncDict.label].
    rewrite String.eqb_refl. unfold invoke, getattr_.
    cbn [in_list existsb instance_names String.eqb Ascii.eqb Bool.eqb orb].
    now rewrite inherited.
Qed.

(** ** The help text *)

Lemma command_text_append txt func :
  command_text txt func = txt ++ command_block func.
Proof.
  unfold command_block, command_text.
  destruct (Nat.ltb 0 (List.length (FuncDict.aliases func)));
    destruct (negb (String.eqb (FuncDict.help func) ""));
    cbv beta iota zeta; rewrite append_assoc; reflexivity.
Qed.

Lemma append_empty_r (s : string) : s ++ "" = s.
Proof. induction s as [|x s IH]; simpl; [reflexivity | now rewrite IH]. Qed.

Lemma command_texts_concat (entries : dict FuncDict.t) (txt : string) :
  fold_left (fun txt kv => command_text txt (snd kv)) entries txt
  = txt ++ String.concat "" (map (fun kv => command_block (snd kv)) entries).
Proof.
  revert txt. induction entries as [|kv entries IH]; intros txt.
  - simpl. now rewrite append_empty_r.
  - cbn [fold_left map]. rewrite IH, command_text_append, append_assoc.
    f_equal. destruct entries as [|kv' entries]; simpl.
    + now rewrite append_empty_r.
    + reflexivity.
Qed.

(** X14.  [textwrap.dedent] finds no margin to remove in the help text, since
    the line [commands:] starts at the first column: the help text is the
    description, the heading and one block per visible command in the
    order of the map, with the lines made of blanks only emptied and the
    indentation of every other line kept. *)
Theorem help_text_layout (c : controller_class) (self : Instance.t) :
  help_text c self
  = unlines
      (map normalize_line
         (lines (Meta.description (meta c) ++ nl ++ nl ++ "commands:" ++ nl ++ nl
                 ++ String.concat ""
                      (map (fun kv => command_block (snd kv))
                           (Instance.visible self))
                 ++ nl ++ nl ++ "        " ++ nl ++ "        "))).
Proof.
  unfold help_text. rewrite command_texts_concat.
  change ("" ++ String.concat "" (map (fun kv => command_block (snd kv))
                                      (Instance.visible self)))
    with (String.concat "" (map (fun kv => command_block (snd kv))
                                (Instance.visible self))).
  set (rest := nl ++ String.concat "" _ ++ _).
  unfold dedent.
  rewrite (margin_of_flush _ "commands:"); [| | reflexivity | reflexivity].
  - now rewrite strip_no_margin.
  - rewrite lines_append.
    change (nl ++ "commands:" ++ nl ++ rest) with ("" ++ nl ++ "commands:" ++ nl ++ rest).
    rewrite lines_append, lines_append, !map_app.
    apply in_or_app. right. apply in_or_app. right.
    apply in_or_app. left. simpl. now left.
Qed.

(** ** [setup] as a whole *)

Lemma chop_command_total s a :
  Instance.app s = Some a ->
  exists s' a',
    chop_command s = Ok s' /\ Instance.app s' = Some a'
    /\ App.args a' = App.args a
    /\ Instance.visible s' = Instance.visible s.
Proof.
  intros Happ. unfold chop_command. rewrite Happ.
  destruct (App.argv a) as [|token rest]; [now exists s, a|].
  destruct (negb (startswith token "-")); [|now exists s, a].
  destruct (dict_mem (Instance.exposed s) token).
  - eexists. eexists. split; [reflexivity|]. simpl. auto.
  - destruct (alias_scan token (Instance.exposed s)) as [func|].
    + eexists. eexists. split; [reflexivity|]. simpl. auto.
    + now exists s, a.
Qed.

(** X15.  Once [_collect] got its arguments into the parser, [setup] cannot
    fail before it parses the command line: it reaches [_parse_args], on
    an application whose parser has been given the help text as
    description, the usage text and the raw formatter, and from there it
    fails exactly when [_parse_args] does. *)
Theorem setup_reaches_parser (parse_args : App.t -> res App.t) (r : registry)
  (c : controller_class) (self : Instance.t) (base_app : App.t) :
  accepts (App.args base_app)
          (Meta.arguments (meta c) ++ stacked_arguments r c)%list = true ->
  exists s a u,
    Instance.app s = Some a
    /\ usage_text c s = Ok u
    /\ Parser.description (App.args a) = Some (help_text c s)
    /\ Parser.usage (App.args a) = Some u
    /\ Parser.raw_formatter (App.args a) = true
    /\ setup parse_args r c self base_app
       = (a' <- parse_args a ;;
          Ok (Instance.with_shortcuts (Instance.with_app s (Some a'))
                (Some (App.config a')) (Some (App.log a')) (App.pargs a'))).
Proof.
  intros Hacc. unfold setup.
  destruct (collect_total r c (Instance.with_app self (Some base_app)) base_app
              eq_refl Hacc) as [s1 E1].
  rewrite E1. cbn [bind].
  destruct (collect_app r c (Instance.with_app self (Some base_app)) base_app
              s1 eq_refl E1) as [Happ1 _].
  destruct (chop_command_total s1 _ Happ1) as [s2 [a2 [-> [Happ2 [Hargs Hvis]]]]].
  cbn [bind].
  pose (described := fun u =>
          App.with_args a2
            (Parser.mk (Parser.prog (App.args a2)) (Parser.added (App.args a2))
                       (Some (help_text c s2)) (Some u) true)).
  assert (Husage : exists u, usage_text c s2 = Ok u).
  { unfold usage_text. rewrite Happ2.
    destruct (String.eqb (Meta.label (meta c)) "base"); eexists; reflexivity. }
  destruct Husage as [u Hu].
  exists (Instance.with_app s2 (Some (described u))), (described u), u.
  split; [reflexivity|]. split.
  { unfold usage_text in *. rewrite Happ2 in Hu. exact Hu. }
  split; [reflexivity|]. split; [reflexivity|]. split; [reflexivity|].
  unfold describe. rewrite Happ2, Hu. reflexivity.
Qed.

(** ** The further properties at the sample application *)

Lemma collected_keys_are_labels_witness :
  FuncDict.label Sample.list_entry = "list".
Proof.
  apply (collected_keys_are_labels Sample.alone Sample.base
           (Sample.instance []) (Sample.collected []) "list" Sample.list_entry).
  - reflexivity.
  - right. left. reflexivity.
Defined.

Lemma collected_maps_split_witness :
  (dict_get (Instance.hidden (Sample.collected [])) "default"
   = Some (default_entry Sample.base) ->
   FuncDict.hide (default_entry Sample.base) = true
   /\ dict_mem (Instance.exposed (Sample.collected [])) "default" = true)
  /\ (dict_get (Instance.visible (Sample.collected [])) "default"
      = Some (default_entry Sample.base) ->
      FuncDict.hide (default_entry Sample.base) = false
      /\ dict_mem (Instance.exposed (Sample.collected [])) "default" = true).
Proof.
  apply (collected_maps_split Sample.alone Sample.base (Sample.instance [])
           (Sample.collected []) "default" (default_entry Sample.base)).
  reflexivity.
Defined.

Lemma hidden_controller_shows_no_own_command_witness :
  FuncDict.controller (controller_entry Sample.toplevel)
  <> Meta.label (meta Sample.secret).
Proof.
  apply (hidden_controller_shows_no_own_command Sample.with_secret
           Sample.secret (Sample.instance []) (Sample.collected_secret [])
           "tools" (controller_entry Sample.toplevel)).
  - reflexivity.
  - reflexivity.
  - reflexivity.
Defined.


Lemma collect_needs_application_witness :
  _collect Sample.alone Sample.base __init__ = Raise (AttributeError "args").
Proof.
  apply (collect_needs_application Sample.alone Sample.base __init__);
    reflexivity.
Defined.

Lemma collect_merges_arguments_witness :
  exists a',
    Instance.app (Sample.collected_opts ["--foo"]) = Some a'
    /\ Parser.added (App.args a')
       = (Parser.added (App.args (Sample.app ["--foo"]))
          ++ Meta.arguments (meta Sample.opts)
          ++ stacked_arguments Sample.with_opts Sample.opts)%list
    /\ App.argv a' = App.argv (Sample.app ["--foo"])
    /\ Instance.command (Sample.collected_opts ["--foo"])
       = Instance.command (Sample.instance ["--foo"])
    /\ Instance.arguments (Sample.collected_opts ["--foo"]) = [].
Proof.
  apply (collect_merges_arguments Sample.with_opts Sample.opts
           (Sample.instance ["--foo"]) (Sample.collected_opts ["--foo"])
           (Sample.app ["--foo"])).
  - reflexivity.
  - reflexivity.
Defined.

Lemma collect_returns_iff_accepted_witness :
  (exists self',
     _collect Sample.with_opts Sample.opts (Sample.instance ["--foo"]) = Ok self')
  <-> accepts (App.args (Sample.app ["--foo"]))
        (Meta.arguments (meta Sample.opts)
         ++ stacked_arguments Sample.with_opts Sample.opts)%list
      = true.
Proof.
  apply (collect_returns_iff_accepted Sample.with_opts Sample.opts
           (Sample.instance ["--foo"]) (Sample.app ["--foo"])).
  reflexivity.
Defined.

Lemma declared_stacked_on_ignored_witness :
  Instance.exposed (Sample.collected []) = Instance.exposed (Sample.collected [])
  /\ Instance.visible (Sample.collected []) = Instance.visible (Sample.collected [])
  /\ Instance.hidden (Sample.collected []) = Instance.hidden (Sample.collected []).
Proof.
  apply (declared_stacked_on_ignored Sample.with_stacked Sample.base
           (Sample.instance []) (Sample.collected []) (Sample.collected [])).
  - reflexivity.
  - reflexivity.
Defined.

Lemma chop_selects_exposed_witness :
  Instance.with_command
    (with_argv (Sample.collected ["ls"; "-v"]) (Sample.app ["ls"; "-v"]) ["-v"])
    "list"
  = Sample.collected ["ls"; "-v"]
  \/ exists a token rest e,
       Instance.app (Sample.collected ["ls"; "-v"]) = Some a
       /\ App.argv a = token :: rest
       /\ Instance.app
            (Instance.with_command
               (with_argv (Sample.collected ["ls"; "-v"])
                          (Sample.app ["ls"; "-v"]) ["-v"]) "list")
          = Some (App.with_argv a rest)
       /\ dict_get
            (Instance.exposed
               (Instance.with_command
                  (with_argv (Sample.collected ["ls"; "-v"])
                             (Sample.app ["ls"; "-v"]) ["-v"]) "list"))
            (Instance.command
               (Instance.with_command
                  (with_argv (Sample.collected ["ls"; "-v"])
                             (Sample.app ["ls"; "-v"]) ["-v"]) "list"))
          = Some e
       /\ (Instance.command
             (Instance.with_command
                (with_argv (Sample.collected ["ls"; "-v"])
                           (Sample.app ["ls"; "-v"]) ["-v"]) "list")
           = token
           \/ In token (FuncDict.aliases e)).
Proof.
  apply (chop_selects_exposed Sample.alone Sample.base
           (Sample.instance ["ls"; "-v"]) (Sample.collected ["ls"; "-v"])).
  - reflexivity.
  - reflexivity.
Defined.

Lemma dispatch_runs_own_function_witness :
  exists f,
    (class_lookup Sample.base "list" = Some f
     \/ (f = default /\ "list" = "default"
         /\ class_lookup Sample.base "default" = None))
    /\ dispatch 1 Sample.alone Sample.base
         (Instance.with_command (Sample.collected []) "list")
       = ([Debug ("dispatching command: " ++ "base" ++ "." ++ "list");
           Invoke OnSelf "list"],
          body f (Instance.with_command (Sample.collected []) "list")).
Proof.
  apply (dispatch_runs_own_function 0 Sample.alone Sample.base
           (Sample.instance []) (Sample.collected [])
           (Instance.with_command (Sample.collected []) "list")
           Sample.list_entry).
  - reflexivity.
  - reflexivity.
  - discriminate.
  - reflexivity.
  - reflexivity.
Defined.

Lemma sample_labels_unique :
  NoDup (map (fun k => Meta.label (meta k)) Sample.with_toplevel).
Proof.
  simpl. constructor.
  - intros [H|[]]. discriminate.
  - constructor; [intros [] | constructor].
Qed.

Lemma dispatch_listed_controller_witness :
  dispatch 1 Sample.with_toplevel Sample.base
    (Instance.with_command (Sample.collected_with_tools ["tools"]) "tools")
  = ([Debug ("dispatching command: " ++ "tools" ++ "." ++ "tools");
      Invoke (OnFresh "tools") "tools"],
     _ <- Sample.noop __init__ ;;
     Ok (Instance.with_command (Sample.collected_with_tools ["tools"]) "tools")).
Proof.
  apply (dispatch_listed_controller 0 Sample.with_toplevel Sample.base
           (Sample.instance ["tools"]) (Sample.collected_with_tools ["tools"])
           (Instance.with_command (Sample.collected_with_tools ["tools"]) "tools")
           Sample.toplevel
           (expose false "Run the tool" [] (def "tools" Sample.noop))).
  - exact sample_labels_unique.
  - simpl. tauto.
  - reflexivity.
  - reflexivity.
  - reflexivity.
  - reflexivity.
  - discriminate.
  - reflexivity.
Defined.

Lemma listed_controller_entry_witness :
  dict_get (Instance.exposed (Sample.collected_with_tools [])) "tools"
  = Some (controller_entry Sample.toplevel)
  /\ dict_get (Instance.visible (Sample.collected_with_tools [])) "tools"
     = Some (controller_entry Sample.toplevel).
Proof.
  apply (listed_controller_entry Sample.with_toplevel Sample.base
           (Sample.instance []) (Sample.collected_with_tools [])
           Sample.toplevel).
  - exact sample_labels_unique.
  - simpl. tauto.
  - discriminate.
  - reflexivity.
  - discriminate.
  - reflexivity.
  - reflexivity.
Defined.

Lemma unresolved_command_runs_default_witness :
  chop_command (Sample.collected_with_tools ["--foo"])
  = Ok (Sample.collected_with_tools ["--foo"])
  /\ dispatch 1 Sample.with_toplevel Sample.base
       (Sample.collected_with_tools ["--foo"])
     = ([Debug ("dispatching command: " ++ "base" ++ ".default");
         Invoke OnSelf "default"],
        Raise NotImplementedError).
Proof.
  apply (unresolved_command_runs_default 0 Sample.with_toplevel Sample.base
           (Sample.instance ["--foo"]) (Sample.collected_with_tools ["--foo"])
           (Sample.app ["--foo"])).
  - reflexivity.
  - intros controller Hin _. simpl in Hin.
    destruct Hin as [<-|[<-|[]]]; discriminate.
  - reflexivity.
  - reflexivity.
  - right. exists "--foo", []. split; reflexivity.
  - reflexivity.
Defined.

Lemma setup_reaches_parser_witness :
  exists s a u,
    Instance.app s = Some a
    /\ usage_text Sample.opts s = Ok u
    /\ Parser.description (App.args a) = Some (help_text Sample.opts s)
    /\ Parser.usage (App.args a) = Some u
    /\ Parser.raw_formatter (App.args a) = true
    /\ setup (fun app => Ok app) Sample.with_opts Sample.opts __init__
         (Sample.app ["--foo"])
       = (a' <- Ok a ;;
          Ok (Instance.with_shortcuts (Instance.with_app s (Some a'))
                (Some (App.config a')) (Some (App.log a')) (App.pargs a'))).
Proof.
  apply (setup_reaches_parser (fun app => Ok app) Sample.with_opts Sample.opts
           __init__ (Sample.app ["--foo"])).
  reflexivity.
Defined.
